(** * ProfDAGNet: per-operator and per-type timing statistics

    A shallow embedding of caffe2/contrib/prof/prof_dag_net.cc.

    The net object is a record that is threaded through a small
    state-and-exception monad: a member function either returns a value
    together with the net it leaves behind, throws (CAFFE_ENFORCE) leaving
    behind the net as mutated so far, or has undefined behaviour (an index
    outside [operator_nodes_], a signed overflow of [runs_]).

    Timings are C++ [float]s: IEEE-754 binary32 values, every operation
    rounded to nearest-even on its own (no contraction, no excess
    precision), as given by the Standard Library's executable
    specification of floating-point arithmetic. *)

From Stdlib Require Import ZArith String Ascii List Lia Bool.
From Stdlib Require Import Floats.SpecFloat.
From stdpp Require Import base option list gmap fin_maps strings pretty sorting.

Local Open Scope string_scope.
Local Open Scope Z_scope.

(** ** Binary32 arithmetic *)

Module Float32.

Definition prec : Z := 24.
Definition emax : Z := 128.

Definition float := spec_float.

Definition zero : float := S754_zero false.
Definition nan : float := S754_nan.

Definition add : float -> float -> float := SFadd prec emax.
Definition sub : float -> float -> float := SFsub prec emax.
Definition mul : float -> float -> float := SFmul prec emax.
Definition div : float -> float -> float := SFdiv prec emax.
Definition sqrt : float -> float := SFsqrt prec emax.

(** Conversion of an [int] operand to [float] (usual arithmetic
    conversions), rounding to nearest-even. *)
Definition of_int (n : Z) : float := binary_normalize prec emax n 0 false.

Global Instance float_eq_dec : EqDecision float.
Proof. unfold float. solve_decision. Defined.

End Float32.

Abbreviation float := Float32.float.

(** ** Data *)

(** Modelled from the spec: [struct Stats] is declared in prof_dag_net.h,
    which is not among the sources: "Stats {sum: float, sqrsum: float,
    count: integer}", value-initialised to zero.  [cnt] is a [size_t]. *)
Record Stats : Type := mkStats {
  sum : float;
  sqrsum : float;
  cnt : Z
}.

Global Instance Stats_eq_dec : EqDecision Stats.
Proof. solve_decision. Defined.

Definition size_t_modulus : Z := 2 ^ 64.
Definition INT_MAX : Z := 2 ^ 31 - 1.

(** [Stats()] *)
Definition Stats_zero : Stats := mkStats Float32.zero Float32.zero 0.

(** What the code reads of an operator node: the fields of
    [node.operator_->debug_def()]; [OutputSize()] is the length of
    [output]. *)
Record OperatorNode : Type := mkNode {
  type : string;
  name : string;
  output : list string
}.

(** [ProfDAGProto]: the message filled by [ProtoMsg]. *)
Record ProfDAGProto : Type := mkProto {
  proto_name : string;
  proto_mean : float;
  proto_stddev : float
}.

(** The net.  [name_] and [operator_nodes_] are inherited from
    [DAGNetBase]; [time_per_op_], [time_per_op_type_] and [runs_] are the
    profiling members (Modelled from the spec: their declarations, with
    [int runs_ = 0], are in the absent header).  [executed] is a ghost
    field: the number of operator executions so far, which selects what
    the next [operator_->Run()] does. *)
Record ProfDAGNet : Type := mkNet {
  name_ : string;
  operator_nodes_ : list OperatorNode;
  time_per_op_ : list Stats;
  time_per_op_type_ : gmap string Stats;
  runs_ : Z;
  executed : nat
}.

(** One call of [operator_->Run()] bracketed by the timer: its success
    flag and what [timer.MilliSeconds()] reads afterwards. *)
Record Execution : Type := mkExec {
  succeeded : bool;
  MilliSeconds : float
}.

(** ** The monad of member functions *)

Inductive Outcome (A : Type) : Type :=
| Returns (a : A) (net : ProfDAGNet)
| Throws (what : string) (net : ProfDAGNet)
| Undefined.
Arguments Returns {A} a net.
Arguments Throws {A} what net.
Arguments Undefined {A}.

Definition M (A : Type) : Type := ProfDAGNet -> Outcome A.

Global Instance M_ret : MRet M := fun A a net => Returns a net.

Global Instance M_bind : MBind M := fun A B k m net =>
  match m net with
  | Returns a net' => k a net'
  | Throws what net' => Throws what net'
  | Undefined => Undefined
  end.

Definition get : M ProfDAGNet := fun net => Returns net net.
Definition put (net' : ProfDAGNet) : M unit := fun _ => Returns tt net'.
Definition undefined {A} : M A := fun _ => Undefined.

(** [CAFFE_ENFORCE(cond, ...)]: throws [EnforceNotMet] carrying the
    concatenated message arguments. *)
Definition CAFFE_ENFORCE (cond : bool) (what : string) : M unit :=
  fun net => if cond then Returns tt net else Throws what net.

(** The net an outcome leaves behind, if any. *)
Definition net_after {A} (o : Outcome A) : option ProfDAGNet :=
  match o with
  | Returns _ net => Some net
  | Throws _ net => Some net
  | Undefined => None
  end.

(** ** Field updates *)

Definition set_time_per_op (ts : list Stats) (net : ProfDAGNet) : ProfDAGNet :=
  mkNet (name_ net) (operator_nodes_ net) ts (time_per_op_type_ net)
        (runs_ net) (executed net).

Definition set_time_per_op_type (m : gmap string Stats) (net : ProfDAGNet)
  : ProfDAGNet :=
  mkNet (name_ net) (operator_nodes_ net) (time_per_op_ net) m
        (runs_ net) (executed net).

Definition set_runs (r : Z) (net : ProfDAGNet) : ProfDAGNet :=
  mkNet (name_ net) (operator_nodes_ net) (time_per_op_ net)
        (time_per_op_type_ net) r (executed net).

Definition set_executed (n : nat) (net : ProfDAGNet) : ProfDAGNet :=
  mkNet (name_ net) (operator_nodes_ net) (time_per_op_ net)
        (time_per_op_type_ net) (runs_ net) n.

(** [s.sum += spent; s.sqrsum += spent * spent] *)
Definition accumulate (spent : float) (s : Stats) : Stats :=
  mkStats (Float32.add (sum s) spent)
          (Float32.add (sqrsum s) (Float32.mul spent spent))
          (cnt s).

(** [s.cnt += 1] on a [size_t] *)
Definition count_one (s : Stats) : Stats :=
  mkStats (sum s) (sqrsum s) ((cnt s + 1) mod size_t_modulus).

(** Conversion of an [int] to [size_t]. *)
Definition to_size_t (n : Z) : Z := n mod size_t_modulus.

(** [size > idx] for a vector size and an [int] index, as in
    [time_per_op_.size() > idx]: the index is converted to [size_t], which
    sends a negative [int] to at least [2^64 - 2^31], above the size of any
    vector. *)
Definition size_gt (size : nat) (idx : Z) : bool :=
  (0 <=? idx) && (idx <? Z.of_nat size).

(** [v[idx]] on a vector: [None] stands for the out-of-range access. *)
Definition at_index {A} (v : list A) (idx : Z) : option A :=
  if size_gt (length v) idx then v !! Z.to_nat idx else None.

(** [m[key]] on a [CaffeMap] (a [std::map]) read-modify-write: a missing
    key is first inserted with a value-initialised entry. *)
Definition map_update {V} (dflt : V) (f : V -> V) (key : string)
  (m : gmap string V) : gmap string V :=
  <[key := f (default dflt (m !! key))]> m.

(** Iteration over a [std::map<std::string, V>]: ascending keys. *)
Definition key_le {V} (a b : string * V) : Prop :=
  String.leb (fst a) (fst b) = true.

Global Instance key_le_dec {V} (a b : string * V) : Decision (key_le a b).
Proof. unfold key_le. solve_decision. Defined.

Definition items {V} (m : gmap string V) : list (string * V) :=
  merge_sort key_le (map_to_list m).

(** ** Construction *)

(** [ProfDAGNet::ProfDAGNet]: [DAGNetBase(net_def, ws)] builds the nodes
    (taken as given here), [time_per_op_(operator_nodes_.size())] holds
    that many value-initialised [Stats]. *)
Definition Construct (net_name : string) (nodes : list OperatorNode)
  : ProfDAGNet :=
  mkNet net_name nodes (replicate (length nodes) Stats_zero) ∅ 0 0.

(** ** Messages of the enforced checks *)

Definition size_message (net : ProfDAGNet) : string :=
  "Data collected for " +:+ pretty (length (time_per_op_ net)) +:+
  " ops, expected " +:+ pretty (length (operator_nodes_ net)) +:+ " ops.".

Definition index_message (net : ProfDAGNet) (idx : Z) : string :=
  "Expecting " +:+ pretty (length (time_per_op_ net)) +:+
  " ops, but op #" +:+ pretty idx +:+ " was given.".

Definition runs_message (net : ProfDAGNet) : string :=
  "# of runs: " +:+ pretty (runs_ net) +:+ ", expected > 1.".

Definition sizes_agree (net : ProfDAGNet) : bool :=
  bool_decide (length (time_per_op_ net) = length (operator_nodes_ net)).

(** ** The timed chain hook *)

Section Hooks.

(** What the [k]-th operator execution since construction does. *)
Variable world : nat -> Execution.

(** [operator_nodes_[idx].operator_->Run()] *)
Definition operator_Run (idx : Z) : M Execution := fun net =>
  match at_index (operator_nodes_ net) idx with
  | None => Undefined
  | Some _ =>
      Returns (world (executed net)) (set_executed (S (executed net)) net)
  end.

(** The body of the loop of [RunAt], for one [idx] of the chain. *)
Definition RunAt_body (idx : Z) (success : bool) : M bool :=
  net ← get;
  if runs_ net <=? 1 then
    r ← operator_Run idx;
    mret (success && succeeded r)
  else
    r ← operator_Run idx;
    let spent := MilliSeconds r in
    net ← get;
    CAFFE_ENFORCE (size_gt (length (time_per_op_ net)) idx)
                  (index_message net idx);;
    put (set_time_per_op
           (alter (accumulate spent) (Z.to_nat idx) (time_per_op_ net))
           net);;
    mret (success && succeeded r).

Fixpoint RunAt_loop (chain : list Z) (success : bool) : M bool :=
  match chain with
  | [] => mret success
  | idx :: rest =>
      success' ← RunAt_body idx success;
      RunAt_loop rest success'
  end.

(** [ProfDAGNet::RunAt] *)
Definition RunAt (chain_id : Z) (chain : list Z) : M bool :=
  RunAt_loop chain true.

(** Modelled from the spec: [DAGNetBase::DoRunAsync] is the external
    engine (caffe2/core/net_dag.cc, not among the sources).  It "invokes
    TimedChainExecutor per chain"; its chains "fully join before the
    post-run diff step" and no two of them touch the same entry, so a
    run is the sequence of the chains it dispatched, each through
    [RunAt], and its flag is the conjunction of theirs. *)
Fixpoint DAGNetBase_DoRunAsync (chain_id : Z) (chains : list (list Z))
  : M bool :=
  match chains with
  | [] => mret true
  | chain :: rest =>
      this_success ← RunAt chain_id chain;
      success ← DAGNetBase_DoRunAsync (chain_id + 1) rest;
      mret (this_success && success)
  end.

(** [ValidateOpTensorDevices] only writes diagnostics to the log. *)
Definition ValidateOpTensorDevices : M unit := mret tt.

(** ** The run wrapper *)

(** First loop of the aggregation, at [idx]. *)
Definition aggregate_at (time_per_op_run : list Stats) (idx : nat)
  (time_per_op_type_run : gmap string float) : M (gmap string float) :=
  net ← get;
  match operator_nodes_ net !! idx,
        time_per_op_ net !! idx, time_per_op_run !! idx with
  | Some node, Some live, Some before =>
      let op_type := type node in
      put (set_time_per_op_type
             (map_update Stats_zero count_one op_type
                         (time_per_op_type_ net)) net);;
      mret (map_update Float32.zero
              (fun t => Float32.add t (Float32.sub (sum live) (sum before)))
              op_type time_per_op_type_run)
  | _, _, _ => undefined
  end.

Fixpoint aggregate_loop (time_per_op_run : list Stats) (idxs : list nat)
  (time_per_op_type_run : gmap string float) : M (gmap string float) :=
  match idxs with
  | [] => mret time_per_op_type_run
  | idx :: rest =>
      m ← aggregate_at time_per_op_run idx time_per_op_type_run;
      aggregate_loop time_per_op_run rest m
  end.

(** Second loop: [sum += item.second; sqrsum += item.second^2]. *)
Definition fold_item (item : string * float) (s : Stats) : Stats :=
  mkStats (Float32.add (sum s) (snd item))
          (Float32.add (sqrsum s) (Float32.mul (snd item) (snd item)))
          (cnt s).

Definition fold_run (time_per_op_type_run : gmap string float)
  (per_type : gmap string Stats) : gmap string Stats :=
  fold_left
    (fun acc item => map_update Stats_zero (fold_item item) (fst item) acc)
    (items time_per_op_type_run) per_type.

(** [ProfDAGNet::DoRunAsync]; [schedule] is what the engine dispatches
    in this run. *)
Definition DoRunAsync (schedule : list (list Z)) : M bool :=
  net ← get;
  if runs_ net =? INT_MAX then undefined else
  put (set_runs (runs_ net + 1) net);;
  net ← get;
  if runs_ net <=? 1 then
    success ← DAGNetBase_DoRunAsync 0 schedule;
    ValidateOpTensorDevices;;
    mret success
  else
    CAFFE_ENFORCE (sizes_agree net) (size_message net);;
    let time_per_op_run := time_per_op_ net in
    success ← DAGNetBase_DoRunAsync 0 schedule;
    net ← get;
    time_per_op_type_run ←
      aggregate_loop time_per_op_run
        (seq 0 (length (operator_nodes_ net))) ∅;
    net ← get;
    put (set_time_per_op_type
           (fold_run time_per_op_type_run (time_per_op_type_ net)) net);;
    mret success.

End Hooks.

(** ** Reporting *)

(** [ProfDAGNet::ProtoMsg]; [runs_ - 1] is converted to [float] for the
    two divisions. *)
Definition ProtoMsg (net : ProfDAGNet) (op_stat : string * Stats)
  : ProfDAGProto :=
  let mean := Float32.div (sum (snd op_stat)) (Float32.of_int (runs_ net - 1)) in
  let stddev :=
    Float32.sqrt
      (Float32.sub
         (Float32.div (sqrsum (snd op_stat)) (Float32.of_int (runs_ net - 1)))
         (Float32.mul mean mean)) in
  mkProto (fst op_stat) mean stddev.

(** [ProfDAGNet::GetOperatorStats] *)
Definition GetOperatorStats : M (list ProfDAGProto) :=
  net ← get;
  mret (map (ProtoMsg net) (items (time_per_op_type_ net))).

(** [name_ + "___" + to_string(idx) + "___" + op_type] *)
Definition op_output_name (net_name : string) (idx : nat) (op_type : string)
  : string :=
  net_name +:+ "___" +:+ pretty idx +:+ "___" +:+ op_type.

Definition per_operator_cost_at (net : ProfDAGNet) (idx : nat)
  : option ProfDAGProto :=
  node ← operator_nodes_ net !! idx;
  stats ← time_per_op_ net !! idx;
  Some (ProtoMsg net (op_output_name (name_ net) idx (type node), stats)).

(** [ProfDAGNet::GetPerOperatorCost] *)
Definition GetPerOperatorCost : M (list ProfDAGProto) :=
  net ← get;
  CAFFE_ENFORCE (sizes_agree net) (size_message net);;
  match mapM (per_operator_cost_at net)
             (seq 0 (length (operator_nodes_ net))) with
  | Some protos => mret protos
  | None => undefined
  end.

(** What is written to the log at teardown. *)
Inductive LogLine : Type :=
| Insufficient_runs
| Op_line (idx : nat) (print_name op_type : string) (mean stddev : float)
| Time_per_operator_type
| Type_line (mean stddev : float) (count_per_iter : Z) (op_type : string).

Definition print_name_of (node : OperatorNode) : string :=
  if bool_decide (String.length (name node) = 0%nat)
  then match output node with
       | [] => "NO_OUTPUT"
       | out0 :: _ => out0
       end
  else name node.

Definition op_line_at (net : ProfDAGNet) (measured_runs : Z) (idx : nat)
  : option LogLine :=
  node ← operator_nodes_ net !! idx;
  stats ← time_per_op_ net !! idx;
  let mean := Float32.div (sum stats) (Float32.of_int measured_runs) in
  let stddev :=
    Float32.sqrt
      (Float32.sub (Float32.div (sqrsum stats) (Float32.of_int measured_runs))
                   (Float32.mul mean mean)) in
  Some (Op_line idx (print_name_of node) (type node) mean stddev).

Definition type_line (measured_runs : Z) (item : string * Stats) : LogLine :=
  let mean := Float32.div (sum (snd item)) (Float32.of_int measured_runs) in
  let stddev :=
    Float32.sqrt
      (Float32.sub
         (Float32.div (sqrsum (snd item)) (Float32.of_int measured_runs))
         (Float32.mul mean mean)) in
  Type_line mean stddev (cnt (snd item) / to_size_t measured_runs) (fst item).

(** [ProfDAGNet::PrintStats] *)
Definition PrintStats : M (list LogLine) :=
  net ← get;
  CAFFE_ENFORCE (sizes_agree net) (size_message net);;
  CAFFE_ENFORCE (runs_ net >? 1) (runs_message net);;
  let measured_runs := runs_ net - 1 in
  match mapM (op_line_at net measured_runs)
             (seq 0 (length (operator_nodes_ net))) with
  | Some op_lines =>
      mret (op_lines ++ Time_per_operator_type ::
            map (type_line measured_runs) (items (time_per_op_type_ net)))%list
  | None => undefined
  end.

(** [ProfDAGNet::~ProfDAGNet] from its test of [runs_] on (lines 35-39):
    what the destructor does after its first log statement. *)
Definition Destroy : M (list LogLine) :=
  net ← get;
  if runs_ net <=? 1 then mret [Insufficient_runs] else PrintStats.



(** ** Lifetime of a net *)

Inductive Call : Type :=
| Call_RunAt (chain_id : Z) (chain : list Z)
| Call_DoRunAsync (schedule : list (list Z))
| Call_GetOperatorStats
| Call_GetPerOperatorCost.

Definition perform (world : nat -> Execution) (c : Call) (net : ProfDAGNet)
  : option ProfDAGNet :=
  match c with
  | Call_RunAt chain_id chain => net_after (RunAt world chain_id chain net)
  | Call_DoRunAsync schedule => net_after (DoRunAsync world schedule net)
  | Call_GetOperatorStats => net_after (GetOperatorStats net)
  | Call_GetPerOperatorCost => net_after (GetPerOperatorCost net)
  end.

Fixpoint perform_all (world : nat -> Execution) (calls : list Call)
  (net : ProfDAGNet) : option ProfDAGNet :=
  match calls with
  | [] => Some net
  | c :: rest =>
      match perform world c net with
      | Some net' => perform_all world rest net'
      | None => None
      end
  end.

(** The nets a program can hold: built by the constructor, then used
    through any sequence of calls (a call that throws leaves the net as
    mutated so far). *)
Definition reachable (world : nat -> Execution) (net_name : string)
  (nodes : list OperatorNode) (net : ProfDAGNet) : Prop :=
  exists calls,
    perform_all world calls (Construct net_name nodes) = Some net.

(** [measuredRuns] *)
Definition measured_runs (net : ProfDAGNet) : Z := runs_ net - 1.

(** ** Derived notions used to state the properties *)

(** The net left by one timed or untimed execution of node [idx]. *)
Definition after_body (world : nat -> Execution) (idx : Z) (net : ProfDAGNet)
  : ProfDAGNet :=
  let net1 := set_executed (S (executed net)) net in
  if runs_ net <=? 1 then net1
  else set_time_per_op
         (alter (accumulate (MilliSeconds (world (executed net))))
                (Z.to_nat idx) (time_per_op_ net)) net1.

(** The net left by the executions of a whole chain, and the conjunction
    of the success flags of [n] executions from the [start]-th on. *)
Definition after_chain (world : nat -> Execution) (chain : list Z)
  (net : ProfDAGNet) : ProfDAGNet :=
  fold_left (fun net idx => after_body world idx net) chain net.

Definition all_succeeded (world : nat -> Execution) (start n : nat) : bool :=
  forallb (fun k => succeeded (world k)) (seq start n).

(** The timer readings of the executions of node [i] in a chain whose
    first execution is the [start]-th. *)
Fixpoint spent_on (world : nat -> Execution) (i : nat) (chain : list Z)
  (start : nat) : list float :=
  match chain with
  | [] => []
  | idx :: rest =>
      (if bool_decide (idx = Z.of_nat i)
       then [MilliSeconds (world start)] else [])
      ++ spent_on world i rest (S start)
  end.

(** An index the chain may name: a node, and on a measured run an entry
    of [time_per_op_]. *)
Definition runnable (net : ProfDAGNet) (idx : Z) : Prop :=
  0 <= idx < Z.of_nat (length (operator_nodes_ net)) /\
  (1 < runs_ net -> idx < Z.of_nat (length (time_per_op_ net))).

(** What a list of timer readings does to one entry. *)
Definition accumulate_all (spents : list float) (s : Stats) : Stats :=
  fold_left (fun s spent => accumulate spent s) spents s.

(** *** The aggregation, in the words of the specification *)

(** "for every node index compute delta = live.sum - snapshot.sum" *)
Definition deltas (live before : list Stats) : list float :=
  zip_with (fun l b => Float32.sub (sum l) (sum b)) live before.

(** "group deltas by operator type and sum them into a per-type
    run-total": the deltas of the nodes of that type, added up in index
    order from [0.0f]. *)
Definition run_total (nodes : list OperatorNode) (ds : list float)
  (op_type : string) : float :=
  fold_left Float32.add
    (snd <$> filter (fun p => type (fst p) = op_type) (zip nodes ds))
    Float32.zero.

(** "the number of node instances of that type in this run" *)
Definition instances (nodes : list OperatorNode) (op_type : string) : nat :=
  length (filter (fun node => type node = op_type) nodes).

(** [new] is [old] with one measured run folded in: each observed type
    gains the run-total, its square and its number of instances. *)
Definition folded_into (nodes : list OperatorNode) (live before : list Stats)
  (old new : gmap string Stats) : Prop :=
  forall op_type : string,
    new !! op_type =
      if decide (instances nodes op_type = 0%nat) then old !! op_type
      else
        let s := default Stats_zero (old !! op_type) in
        let run := run_total nodes (deltas live before) op_type in
        Some (mkStats
                (Float32.add (sum s) run)
                (Float32.add (sqrsum s) (Float32.mul run run))
                ((cnt s + Z.of_nat (instances nodes op_type))
                   mod size_t_modulus)).

(** *** The two loops of the aggregation, seen at one key *)

Definition run_acc (op_type : string) (pairs : list (OperatorNode * float))
  (o : option float) : option float :=
  fold_left
    (fun o p => if decide (type (fst p) = op_type)
                then Some (Float32.add (default Float32.zero o) (snd p))
                else o)
    pairs o.

Definition cnt_acc (op_type : string) (nodes : list OperatorNode)
  (o : option Stats) : option Stats :=
  fold_left
    (fun o node => if decide (type node = op_type)
                   then Some (count_one (default Stats_zero o)) else o)
    nodes o.

(** What no call changes: the name, the nodes, the length of
    [time_per_op_] and the [cnt] of its entries. *)
Definition same_shape (net net' : ProfDAGNet) : Prop :=
  name_ net' = name_ net /\
  operator_nodes_ net' = operator_nodes_ net /\
  length (time_per_op_ net') = length (time_per_op_ net) /\
  cnt <$> time_per_op_ net' = cnt <$> time_per_op_ net.

(** ** Concrete executions and nets *)

(** [t] milliseconds, a whole number. *)
Definition ms (t : Z) : float := Float32.of_int t.

(** A world that plays the listed executions (success flag, whole
    milliseconds) and then succeeds in no time for ever. *)
Definition script (l : list (bool * Z)) : nat -> Execution := fun k =>
  match l !! k with
  | Some (ok, t) => mkExec ok (ms t)
  | None => mkExec true Float32.zero
  end.

Definition add_node : OperatorNode := mkNode "Add" "" [].
Definition mul_node : OperatorNode := mkNode "Mul" "" [].

(** A net whose [time_per_op_] (two entries) no longer matches its one
    node, in a measured run. *)
Definition mismatched_net : ProfDAGNet :=
  mkNet "net" [add_node] [Stats_zero; Stats_zero] ∅ 2 0.

(** ** Strings without an underscore *)

(** The decimal digits printed for an index contain no ["_"], which is
    what separates them from the rest of a composite name. *)
Fixpoint underscore_free (s : string) : Prop :=
  match s with
  | EmptyString => True
  | String a rest => a <> "_"%char /\ underscore_free rest
  end.

(** The calls that are runs. *)
Definition is_run (c : Call) : bool :=
  match c with
  | Call_DoRunAsync _ => true
  | _ => false
  end.

(** ** Whole lifetimes of completed runs *)

(** The runs of a program that only calls [DoRunAsync], every call
    returning: one schedule per run. *)
Fixpoint run_all (world : nat -> Execution) (schedules : list (list (list Z)))
  (net : ProfDAGNet) : option ProfDAGNet :=
  match schedules with
  | [] => Some net
  | schedule :: rest =>
      match DoRunAsync world schedule net with
      | Returns _ net' => run_all world rest net'
      | _ => None
      end
  end.

(** The timer readings of node [i] over such a lifetime that belong to
    measured runs: [runs] is [runs_] before the first of the runs and
    [start] the number of executions before it. *)
Fixpoint measured_readings (world : nat -> Execution) (i : nat)
  (schedules : list (list (list Z))) (runs : Z) (start : nat) : list float :=
  match schedules with
  | [] => []
  | schedule :: rest =>
      ((if runs + 1 <=? 1 then []
        else spent_on world i (concat schedule) start)
       ++ measured_readings world i rest (runs + 1)
            (start + length (concat schedule)))%list
  end.

(** The invocation counters of the per-type table after [runs_ net]
    completed runs of a graph with these nodes: each type of the graph
    has counted its nodes once per measured run, modulo [size_t]; no
    other type has an entry, and none has before the first measured
    run. *)
Definition counted (nodes : list OperatorNode) (net : ProfDAGNet) : Prop :=
  forall op_type,
    cnt (default Stats_zero (time_per_op_type_ net !! op_type))
      = (Z.max 0 (runs_ net - 1) * Z.of_nat (instances nodes op_type))
          mod size_t_modulus /\
    (is_Some (time_per_op_type_ net !! op_type) <->
     2 <= runs_ net /\ instances nodes op_type <> 0%nat).

(** ** The device check, with its log *)

(** One entry of what [ValidateTensorDevices] returns (caffe2/core, not
    among the sources; its result for each node is a parameter below):
    the tensor, and the GPU ids of the expected and of the actual device
    option, which is all the log line prints. *)
Record Mismatch : Type := mkMismatch {
  tensor : string;
  expected_gpu : Z;
  actual_gpu : Z
}.

Inductive DeviceLog : Type :=
| Performance_warning (op_type : string) (expected : Z) (blob : string)
    (actual : Z)
| No_mismatches.

(** The inner loop of [ValidateOpTensorDevices], for one node. *)
Definition warn_node (node : OperatorNode) (mismatches : list Mismatch)
  (acc : bool * list DeviceLog) : bool * list DeviceLog :=
  fold_left
    (fun acc mismatch =>
       (true,
        (snd acc ++ [Performance_warning (type node) (expected_gpu mismatch)
                       (tensor mismatch) (actual_gpu mismatch)])%list))
    mismatches acc.

(** [ProfDAGNet::ValidateOpTensorDevices], returning what it logs (the
    net is not touched, which is all [ValidateOpTensorDevices] above
    keeps of it).  [mismatches idx] is the result of
    [ValidateTensorDevices] for node [idx]. *)
Definition ValidateOpTensorDevices_log (mismatches : nat -> list Mismatch)
  (net : ProfDAGNet) : list DeviceLog :=
  let result :=
    fold_left
      (fun acc idx =>
         match operator_nodes_ net !! idx with
         | Some node => warn_node node (mismatches idx) acc
         | None => acc
         end)
      (seq 0 (length (operator_nodes_ net))) (false, []) in
  if fst result then snd result else (snd result ++ [No_mismatches])%list.

(** The line [ValidateOpTensorDevices] logs for one mismatch at a node. *)
Definition warning_of (node : OperatorNode) (mismatch : Mismatch)
  : DeviceLog :=
  Performance_warning (type node) (expected_gpu mismatch) (tensor mismatch)
                      (actual_gpu mismatch).

(** All the warnings of a graph: node by node from index [from] on, and
    for each node in the order of its mismatches. *)
Fixpoint warnings_from (mismatches : nat -> list Mismatch) (from : nat)
  (nodes : list OperatorNode) : list DeviceLog :=
  match nodes with
  | [] => []
  | node :: rest =>
      ((warning_of node <$> mismatches from)
       ++ warnings_from mismatches (S from) rest)%list
  end.

(** ** Reading the model *)

Ltac unfold_M :=
  unfold mbind, M_bind, mret, M_ret, get, put, undefined, CAFFE_ENFORCE in *.

Lemma size_gt_true size idx :
  size_gt size idx = true <-> 0 <= idx < Z.of_nat size.
Proof. unfold size_gt. rewrite andb_true_iff, Z.leb_le, Z.ltb_lt. tauto. Qed.

Lemma size_gt_false size idx :
  size_gt size idx = false <-> ~ (0 <= idx < Z.of_nat size).
Proof. rewrite <- size_gt_true. destruct (size_gt size idx); intuition congruence. Qed.

Lemma at_index_is_Some {A} (v : list A) idx :
  size_gt (length v) idx = true -> is_Some (at_index v idx).
Proof.
  intros H. unfold at_index. rewrite H.
  apply lookup_lt_is_Some. apply size_gt_true in H. lia.
Qed.

Lemma at_index_None {A} (v : list A) idx :
  size_gt (length v) idx = false -> at_index v idx = None.
Proof. intros H. unfold at_index. now rewrite H. Qed.

Lemma RunAt_body_eq world idx success net :
  RunAt_body world idx success net =
    if size_gt (length (operator_nodes_ net)) idx then
      if (runs_ net <=? 1) || size_gt (length (time_per_op_ net)) idx
      then Returns (success && succeeded (world (executed net)))
                   (after_body world idx net)
      else Throws (index_message net idx)
                  (set_executed (S (executed net)) net)
    else Undefined.
Proof.
  unfold RunAt_body, after_body, operator_Run. unfold_M.
  destruct (size_gt (length (operator_nodes_ net)) idx) eqn:Hn.
  - destruct (at_index_is_Some _ _ Hn) as [node Hnode].
    destruct (runs_ net <=? 1) eqn:Hr; rewrite Hnode; simpl; [reflexivity|].
    destruct (size_gt (length (time_per_op_ net)) idx); reflexivity.
  - destruct (runs_ net <=? 1); rewrite (at_index_None _ _ Hn); reflexivity.
Qed.

Section Chain_facts.

Variable world : nat -> Execution.

Lemma after_body_frame idx net :
  name_ (after_body world idx net) = name_ net /\
  operator_nodes_ (after_body world idx net) = operator_nodes_ net /\
  time_per_op_type_ (after_body world idx net) = time_per_op_type_ net /\
  runs_ (after_body world idx net) = runs_ net /\
  executed (after_body world idx net) = S (executed net) /\
  length (time_per_op_ (after_body world idx net))
    = length (time_per_op_ net).
Proof.
  unfold after_body. destruct (runs_ net <=? 1); simpl; repeat split.
  apply length_alter.
Qed.

Lemma after_chain_frame chain : forall net,
  name_ (after_chain world chain net) = name_ net /\
  operator_nodes_ (after_chain world chain net) = operator_nodes_ net /\
  time_per_op_type_ (after_chain world chain net) = time_per_op_type_ net /\
  runs_ (after_chain world chain net) = runs_ net /\
  executed (after_chain world chain net)
    = (executed net + length chain)%nat /\
  length (time_per_op_ (after_chain world chain net))
    = length (time_per_op_ net).
Proof.
  induction chain as [|idx rest IH]; intros net; simpl.
  - repeat split. lia.
  - destruct (IH (after_body world idx net)) as (A & B & C & D & E & F).
    destruct (after_body_frame idx net) as (A' & B' & C' & D' & E' & F').
    unfold after_chain in *. simpl.
    rewrite A, B, C, D, E, F, A', B', C', D', E', F'.
    repeat split. lia.
Qed.

Lemma runnable_after_body idx net i :
  runnable (after_body world idx net) i <-> runnable net i.
Proof.
  unfold runnable.
  destruct (after_body_frame idx net) as (_ & B & _ & D & _ & F).
  rewrite B, D, F. tauto.
Qed.

Lemma RunAt_loop_returns chain : forall success net,
  Forall (runnable net) chain ->
  RunAt_loop world chain success net =
    Returns (success && all_succeeded world (executed net) (length chain))
            (after_chain world chain net).
Proof.
  induction chain as [|idx rest IH]; intros success net Hall.
  - simpl. unfold_M. unfold all_succeeded. simpl.
    now rewrite andb_true_r.
  - inversion Hall as [|? ? [Hnode Htime] Hrest]; subst.
    cbn [RunAt_loop]. unfold mbind, M_bind. rewrite RunAt_body_eq.
    assert (Hn : size_gt (length (operator_nodes_ net)) idx = true)
      by now apply size_gt_true.
    rewrite Hn.
    assert (Hok : (runs_ net <=? 1)
                  || size_gt (length (time_per_op_ net)) idx = true).
    { destruct (Z.leb_spec (runs_ net) 1); [reflexivity|].
      simpl. apply size_gt_true. lia. }
    rewrite Hok.
    rewrite IH.
    + destruct (after_body_frame idx net) as (_ & _ & _ & _ & E & _).
      rewrite E. unfold all_succeeded. simpl.
      now rewrite andb_assoc.
    + eapply Forall_impl; [exact Hrest|].
      intros i Hi. exact (proj2 (runnable_after_body idx net i) Hi).
Qed.

Lemma RunAt_loop_Returns_inv chain : forall success net b net',
  RunAt_loop world chain success net = Returns b net' ->
  Forall (runnable net) chain.
Proof.
  induction chain as [|idx rest IH]; intros success net b net' H.
  - constructor.
  - cbn [RunAt_loop] in H. unfold mbind, M_bind in H.
    rewrite RunAt_body_eq in H.
    destruct (size_gt (length (operator_nodes_ net)) idx) eqn:Hn;
      [|discriminate].
    destruct ((runs_ net <=? 1)
              || size_gt (length (time_per_op_ net)) idx) eqn:Hok;
      [|discriminate].
    apply IH in H. constructor.
    + split; [now apply size_gt_true|].
      intros Hr. apply orb_true_iff in Hok as [Hle|Hgt].
      * apply Z.leb_le in Hle. lia.
      * apply size_gt_true in Hgt. lia.
    + eapply Forall_impl; [exact H|].
      intros i Hi. exact (proj1 (runnable_after_body idx net i) Hi).
Qed.

Lemma RunAt_loop_flag chain : forall success net,
  RunAt_loop world chain success net =
    match RunAt_loop world chain true net with
    | Returns b net' => Returns (success && b) net'
    | Throws what net' => Throws what net'
    | Undefined => Undefined
    end.
Proof.
  induction chain as [|idx rest IH]; intros success net.
  - simpl. unfold_M. now rewrite andb_true_r.
  - cbn [RunAt_loop]. unfold mbind, M_bind. rewrite !RunAt_body_eq.
    destruct (size_gt (length (operator_nodes_ net)) idx); [|reflexivity].
    destruct ((runs_ net <=? 1)
              || size_gt (length (time_per_op_ net)) idx); [|reflexivity].
    rewrite IH. rewrite (IH (true && _)).
    destruct (RunAt_loop world rest true _); try reflexivity.
    simpl. now rewrite andb_assoc.
Qed.

Lemma RunAt_loop_app c1 c2 : forall success net,
  RunAt_loop world (c1 ++ c2) success net =
    match RunAt_loop world c1 success net with
    | Returns b net' => RunAt_loop world c2 b net'
    | Throws what net' => Throws what net'
    | Undefined => Undefined
    end.
Proof.
  induction c1 as [|idx rest IH]; intros success net.
  - reflexivity.
  - cbn [RunAt_loop app]. unfold mbind, M_bind.
    destruct (RunAt_body world idx success net); try reflexivity.
    apply IH.
Qed.

(** A run of the engine is the chain of everything it dispatched. *)
Lemma DAGNetBase_DoRunAsync_concat chains : forall chain_id net,
  DAGNetBase_DoRunAsync world chain_id chains net =
    RunAt_loop world (concat chains) true net.
Proof.
  induction chains as [|chain rest IH]; intros chain_id net.
  - reflexivity.
  - cbn [DAGNetBase_DoRunAsync concat]. unfold mbind, M_bind, RunAt.
    rewrite RunAt_loop_app.
    destruct (RunAt_loop world chain true net) as [b net'| |];
      try reflexivity.
    rewrite IH. rewrite (RunAt_loop_flag _ b).
    destruct (RunAt_loop world (concat rest) true net'); reflexivity.
Qed.

End Chain_facts.

Section Entry_facts.

Variable world : nat -> Execution.

Lemma after_chain_warm_up chain : forall net,
  runs_ net <= 1 ->
  after_chain world chain net
    = set_executed (executed net + length chain) net.
Proof.
  induction chain as [|idx rest IH]; intros net Hr.
  - simpl. destruct net; unfold set_executed; simpl. f_equal. lia.
  - unfold after_chain in *. simpl.
    assert (Hb : after_body world idx net
                 = set_executed (S (executed net)) net).
    { unfold after_body. apply Z.leb_le in Hr. now rewrite Hr. }
    rewrite Hb, IH by exact Hr.
    unfold set_executed; simpl. f_equal. lia.
Qed.

Lemma after_chain_entry chain : forall net i,
  1 < runs_ net ->
  Forall (fun idx => 0 <= idx) chain ->
  time_per_op_ (after_chain world chain net) !! i =
    accumulate_all (spent_on world i chain (executed net))
      <$> time_per_op_ net !! i.
Proof.
  induction chain as [|idx rest IH]; intros net i Hr Hall.
  - simpl. now destruct (time_per_op_ net !! i).
  - inversion Hall as [|? ? Hidx Hrest]; subst.
    unfold after_chain in *. cbn [fold_left spent_on].
    destruct (after_body_frame world idx net) as (_ & _ & _ & D & E & _).
    rewrite IH by (rewrite ?D; assumption).
    rewrite E. unfold after_body.
    assert (Hgt : (runs_ net <=? 1) = false) by (apply Z.leb_gt; lia).
    rewrite Hgt. cbn [time_per_op_ set_time_per_op set_executed].
    case_bool_decide as Heq.
    + subst idx. rewrite Nat2Z.id, list_lookup_alter_eq.
      destruct (time_per_op_ net !! i); reflexivity.
    + rewrite list_lookup_alter_ne by lia. reflexivity.
Qed.

Lemma runnable_nonneg net chain :
  Forall (runnable net) chain -> Forall (fun idx => 0 <= idx) chain.
Proof. intros H. eapply Forall_impl; [exact H|]. intros idx [Hi _]. lia. Qed.

End Entry_facts.

(** ** The two loops of the aggregation, key by key *)

Lemma lookup_map_update {V} (dflt : V) (f : V -> V) key (m : gmap string V)
  key' :
  map_update dflt f key m !! key' =
    if decide (key = key') then Some (f (default dflt (m !! key)))
    else m !! key'.
Proof. unfold map_update. apply lookup_insert. Qed.

Section Aggregation_facts.

Lemma aggregate_loop_spec before_all :
  forall rest_nodes rest_live rest_before pre_nodes pre_live pre_before
         acc net,
    operator_nodes_ net = (pre_nodes ++ rest_nodes)%list ->
    time_per_op_ net = (pre_live ++ rest_live)%list ->
    before_all = (pre_before ++ rest_before)%list ->
    length pre_live = length pre_nodes ->
    length pre_before = length pre_nodes ->
    length rest_live = length rest_nodes ->
    length rest_before = length rest_nodes ->
    exists acc' per_type',
      aggregate_loop before_all
        (seq (length pre_nodes) (length rest_nodes)) acc net
        = Returns acc' (set_time_per_op_type per_type' net) /\
      (forall op_type,
          acc' !! op_type =
            run_acc op_type (zip rest_nodes (deltas rest_live rest_before))
                    (acc !! op_type)) /\
      (forall op_type,
          per_type' !! op_type =
            cnt_acc op_type rest_nodes (time_per_op_type_ net !! op_type)).
Proof.
  induction rest_nodes as [|node rest_nodes IH];
    intros rest_live rest_before pre_nodes pre_live pre_before acc net
           Hn Hl Hb Hpl Hpb Hrl Hrb.
  - exists acc, (time_per_op_type_ net). simpl. unfold_M.
    split; [now destruct net|]. split; reflexivity.
  - destruct rest_live as [|live rest_live]; [discriminate|].
    destruct rest_before as [|before rest_before]; [discriminate|].
    simpl in Hrl, Hrb.
    cbn [length seq aggregate_loop]. unfold mbind, M_bind.
    unfold aggregate_at. unfold_M.
    assert (Hnode : operator_nodes_ net !! length pre_nodes = Some node).
    { rewrite Hn. now rewrite list_lookup_middle. }
    assert (Hlive : time_per_op_ net !! length pre_nodes = Some live).
    { rewrite Hl. now rewrite list_lookup_middle. }
    assert (Hbefore : before_all !! length pre_nodes = Some before).
    { rewrite Hb. now rewrite list_lookup_middle. }
    rewrite Hnode, Hlive, Hbefore.
    set (net1 := set_time_per_op_type _ net).
    set (acc1 := map_update Float32.zero _ (type node) acc).
    destruct (IH rest_live rest_before (pre_nodes ++ [node])%list
                 (pre_live ++ [live])%list (pre_before ++ [before])%list
                 acc1 net1)
      as (acc' & per_type' & Hrun & Hacc & Hper).
    + subst net1. simpl. now rewrite <- app_assoc.
    + subst net1. simpl. now rewrite <- app_assoc.
    + now rewrite <- app_assoc.
    + rewrite !length_app. simpl. lia.
    + rewrite !length_app. simpl. lia.
    + lia.
    + lia.
    + rewrite length_app in Hrun. simpl in Hrun.
      rewrite Nat.add_1_r in Hrun.
      exists acc', per_type'. split; [|split].
      * rewrite Hrun. subst net1. reflexivity.
      * intros op_type. rewrite Hacc. subst acc1.
        rewrite lookup_map_update. simpl.
        destruct (decide (type node = op_type)) as [->|Hne]; reflexivity.
      * intros op_type. rewrite Hper. subst net1. simpl.
        rewrite lookup_map_update.
        destruct (decide (type node = op_type)) as [->|Hne]; reflexivity.
Qed.

Lemma run_acc_closed op_type pairs : forall o,
  run_acc op_type pairs o =
    match filter (fun p => type (fst p) = op_type) pairs with
    | [] => o
    | l => Some (fold_left Float32.add (snd <$> l)
                           (default Float32.zero o))
    end.
Proof.
  induction pairs as [|p pairs IH]; intros o; [reflexivity|].
  unfold run_acc in *. cbn [fold_left]. rewrite IH.
  rewrite filter_cons.
  destruct (decide (type (fst p) = op_type)) as [Heq|Hne].
  - simpl. destruct (filter _ pairs); reflexivity.
  - reflexivity.
Qed.

Lemma cnt_acc_closed op_type nodes : forall o,
  cnt_acc op_type nodes o =
    if decide (instances nodes op_type = 0%nat) then o
    else
      let s := default Stats_zero o in
      Some (mkStats (sum s) (sqrsum s)
                    ((cnt s + Z.of_nat (instances nodes op_type))
                       mod size_t_modulus)).
Proof.
  induction nodes as [|node nodes IH]; intros o; [reflexivity|].
  unfold cnt_acc, instances in *. cbn [fold_left]. rewrite IH.
  rewrite filter_cons.
  destruct (decide (type node = op_type)) as [Heq|Hne]; [|reflexivity].
  cbn [length default count_one sum sqrsum cnt].
  destruct (decide (length (filter _ nodes) = 0%nat)) as [Hz|Hnz].
  - rewrite Hz. rewrite decide_False by lia. reflexivity.
  - rewrite decide_False by lia. cbv zeta. do 2 f_equal.
    unfold id, count_one. cbn [cnt]. rewrite Zplus_mod_idemp_l. f_equal. lia.
Qed.

Lemma instances_zip nodes op_type : forall (ds : list float),
  length ds = length nodes ->
  length (filter (fun p : OperatorNode * float => type (fst p) = op_type)
                 (zip nodes ds))
    = instances nodes op_type.
Proof.
  unfold instances.
  induction nodes as [|node nodes IH]; intros [|d ds] Hlen;
    try discriminate; [reflexivity|].
  simpl in Hlen. cbn [zip zip_with]. rewrite !filter_cons. simpl.
  destruct (decide (type node = op_type)); simpl; rewrite IH by lia;
    reflexivity.
Qed.

Lemma fold_items_lookup (l : list (string * float)) :
  NoDup (fst <$> l) ->
  forall (per_type : gmap string Stats) op_type,
    fold_left
      (fun acc item => map_update Stats_zero (fold_item item) (fst item) acc)
      l per_type !! op_type =
    match (list_to_map l : gmap string float) !! op_type with
    | Some t =>
        Some (fold_item (op_type, t)
                        (default Stats_zero (per_type !! op_type)))
    | None => per_type !! op_type
    end.
Proof.
  induction l as [|[key t] l IH]; intros Hnd per_type op_type.
  - simpl. now rewrite lookup_empty.
  - rewrite fmap_cons in Hnd. apply NoDup_cons in Hnd as [Hnotin Hnd].
    cbn [fold_left list_to_map foldr fst snd]. rewrite IH by exact Hnd.
    rewrite lookup_map_update.
    destruct (decide (key = op_type)) as [->|Hne].
    + rewrite lookup_insert_eq.
      rewrite (not_elem_of_list_to_map_1 l op_type) by exact Hnotin.
      reflexivity.
    + rewrite lookup_insert_ne by exact Hne. reflexivity.
Qed.

Lemma fold_run_lookup (run : gmap string float)
  (per_type : gmap string Stats) op_type :
  fold_run run per_type !! op_type =
    match run !! op_type with
    | Some t =>
        Some (fold_item (op_type, t)
                        (default Stats_zero (per_type !! op_type)))
    | None => per_type !! op_type
    end.
Proof.
  unfold fold_run.
  assert (Hperm : items run ≡ₚ map_to_list run)
    by apply merge_sort_Permutation.
  rewrite fold_items_lookup.
  - assert (Hmap : (list_to_map (items run) : gmap string float) = run).
    { rewrite <- (list_to_map_to_list run) at 2.
      apply list_to_map_proper; [|exact Hperm].
      rewrite Hperm. apply NoDup_fst_map_to_list. }
    now rewrite Hmap.
  - rewrite Hperm. apply NoDup_fst_map_to_list.
Qed.

End Aggregation_facts.

Section Run_facts.

Variable world : nat -> Execution.

Lemma engine_returns schedule chain_id net :
  Forall (runnable net) (concat schedule) ->
  DAGNetBase_DoRunAsync world chain_id schedule net =
    Returns (all_succeeded world (executed net) (length (concat schedule)))
            (after_chain world (concat schedule) net).
Proof.
  intros Hall. rewrite DAGNetBase_DoRunAsync_concat.
  now rewrite RunAt_loop_returns.
Qed.

Lemma engine_Returns_inv schedule chain_id net b live :
  DAGNetBase_DoRunAsync world chain_id schedule net = Returns b live ->
  Forall (runnable net) (concat schedule) /\
  b = all_succeeded world (executed net) (length (concat schedule)) /\
  live = after_chain world (concat schedule) net.
Proof.
  intros H. rewrite DAGNetBase_DoRunAsync_concat in H.
  pose proof (RunAt_loop_Returns_inv _ _ _ _ _ _ H) as Hall.
  rewrite RunAt_loop_returns in H by exact Hall.
  injection H as <- <-. auto.
Qed.

(** On the first run the wrapper adds nothing to the engine's run but
    the increment of [runs_]. *)
Lemma DoRunAsync_warm_up schedule net :
  runs_ net <= 0 ->
  DoRunAsync world schedule net =
    DAGNetBase_DoRunAsync world 0 schedule (set_runs (runs_ net + 1) net).
Proof.
  intros Hr. unfold DoRunAsync, ValidateOpTensorDevices. unfold_M.
  assert (H1 : (runs_ net =? INT_MAX) = false)
    by (apply Z.eqb_neq; unfold INT_MAX; lia).
  rewrite H1. cbn [runs_ set_runs].
  assert (H2 : (runs_ net + 1 <=? 1) = true) by (apply Z.leb_le; lia).
  rewrite H2.
  destruct (DAGNetBase_DoRunAsync world 0 schedule _); reflexivity.
Qed.

(** On a later run, whatever flag the engine returns, its run is folded
    into the per-type table. *)
Lemma DoRunAsync_measured schedule net b live :
  1 <= runs_ net -> runs_ net <> INT_MAX ->
  length (time_per_op_ net) = length (operator_nodes_ net) ->
  DAGNetBase_DoRunAsync world 0 schedule (set_runs (runs_ net + 1) net)
    = Returns b live ->
  exists per_type',
    DoRunAsync world schedule net
      = Returns b (set_time_per_op_type per_type' live) /\
    folded_into (operator_nodes_ net) (time_per_op_ live)
                (time_per_op_ net) (time_per_op_type_ net) per_type'.
Proof.
  intros Hlo Hhi Hsize Hengine.
  destruct (engine_Returns_inv _ _ _ _ _ Hengine) as (_ & _ & Hlive).
  destruct (after_chain_frame world (concat schedule)
              (set_runs (runs_ net + 1) net))
    as (_ & Hnodes & Htypes & _ & _ & Hlen).
  rewrite <- Hlive in Hnodes, Htypes, Hlen.
  cbn [operator_nodes_ time_per_op_type_ time_per_op_ set_runs]
    in Hnodes, Htypes, Hlen.
  destruct (aggregate_loop_spec (time_per_op_ net)
              (operator_nodes_ live) (time_per_op_ live) (time_per_op_ net)
              [] [] [] ∅ live)
    as (run & counted & Hloop & Hrun & Hcounted);
    try reflexivity; try congruence.
  exists (fold_run run counted). split.
  - unfold DoRunAsync. unfold_M.
    assert (H1 : (runs_ net =? INT_MAX) = false)
      by (apply Z.eqb_neq; exact Hhi).
    rewrite H1. cbn [runs_ set_runs].
    assert (H2 : (runs_ net + 1 <=? 1) = false) by (apply Z.leb_gt; lia).
    rewrite H2.
    unfold sizes_agree. cbn [time_per_op_ operator_nodes_].
    rewrite bool_decide_eq_true_2 by exact Hsize.
    rewrite Hengine. cbn [time_per_op_ set_runs].
    simpl in Hloop. rewrite Hloop. reflexivity.
  - intros op_type. rewrite fold_run_lookup, Hrun, Hcounted.
    rewrite lookup_empty, run_acc_closed, cnt_acc_closed.
    rewrite Hnodes, Htypes.
    pose proof (instances_zip (operator_nodes_ net) op_type
                  (deltas (time_per_op_ live) (time_per_op_ net))) as Hinst.
    unfold deltas in Hinst at 1. rewrite length_zip_with in Hinst.
    specialize (Hinst ltac:(lia)).
    unfold run_total.
    destruct (filter _ (zip (operator_nodes_ net) _)) as [|p l] eqn:Hf.
    + simpl in Hinst. rewrite decide_True by congruence.
      rewrite decide_True by congruence. reflexivity.
    + simpl in Hinst. rewrite !decide_False by lia.
      reflexivity.
Qed.

End Run_facts.

(** ** What no call changes *)

Lemma same_shape_refl net : same_shape net net.
Proof. repeat split. Qed.

Lemma same_shape_trans net1 net2 net3 :
  same_shape net1 net2 -> same_shape net2 net3 -> same_shape net1 net3.
Proof.
  intros (A & B & C & D) (A' & B' & C' & D').
  repeat split; congruence.
Qed.

Lemma cnt_alter_accumulate spent i (ts : list Stats) :
  cnt <$> alter (accumulate spent) i ts = cnt <$> ts.
Proof.
  revert i. induction ts as [|s ts IH]; intros [|i]; simpl; try reflexivity.
  f_equal. apply IH.
Qed.

Section Shape_facts.

Variable world : nat -> Execution.

Lemma after_body_shape idx net : same_shape net (after_body world idx net).
Proof.
  unfold after_body, same_shape.
  destruct (runs_ net <=? 1); simpl; repeat split.
  - apply length_alter.
  - apply cnt_alter_accumulate.
Qed.

Lemma RunAt_loop_shape chain : forall success net net',
  net_after (RunAt_loop world chain success net) = Some net' ->
  same_shape net net'.
Proof.
  induction chain as [|idx rest IH]; intros success net net' H.
  - simpl in H. injection H as <-. apply same_shape_refl.
  - cbn [RunAt_loop] in H. unfold mbind, M_bind in H.
    rewrite RunAt_body_eq in H.
    destruct (size_gt (length (operator_nodes_ net)) idx);
      [|discriminate].
    destruct ((runs_ net <=? 1)
              || size_gt (length (time_per_op_ net)) idx).
    + apply IH in H.
      eapply same_shape_trans; [apply after_body_shape|exact H].
    + simpl in H. injection H as <-. repeat split.
Qed.

Lemma engine_shape schedule chain_id net net' :
  net_after (DAGNetBase_DoRunAsync world chain_id schedule net) = Some net' ->
  same_shape net net'.
Proof.
  rewrite DAGNetBase_DoRunAsync_concat. apply RunAt_loop_shape.
Qed.

Lemma DoRunAsync_shape schedule net net' :
  net_after (DoRunAsync world schedule net) = Some net' ->
  same_shape net net'.
Proof.
  unfold DoRunAsync, ValidateOpTensorDevices. unfold_M.
  destruct (runs_ net =? INT_MAX); [discriminate|].
  cbn [runs_ set_runs]. fold (set_runs (runs_ net + 1) net).
  assert (H0 : same_shape net (set_runs (runs_ net + 1) net))
    by (repeat split).
  destruct (runs_ net + 1 <=? 1).
  - destruct (DAGNetBase_DoRunAsync world 0 schedule _) as [b live|w live|]
      eqn:He; intros H; simpl in H; try discriminate;
      injection H as <-;
      (eapply same_shape_trans; [exact H0|]);
      apply (engine_shape schedule 0); rewrite He; reflexivity.
  - unfold sizes_agree. cbn [time_per_op_ operator_nodes_ set_runs].
    case_bool_decide as Hsize.
    2:{ intros H. simpl in H. injection H as <-. exact H0. }
    destruct (DAGNetBase_DoRunAsync world 0 schedule _) as [b live|w live|]
      eqn:He; try discriminate.
    2:{ intros H. simpl in H. injection H as <-.
        eapply same_shape_trans; [exact H0|].
        apply (engine_shape schedule 0). rewrite He. reflexivity. }
    assert (Hs : same_shape (set_runs (runs_ net + 1) net) live).
    { apply (engine_shape schedule 0). rewrite He. reflexivity. }
    destruct Hs as (A & B & C & D).
    cbn [name_ operator_nodes_ time_per_op_ set_runs] in A, B, C, D.
    destruct (aggregate_loop_spec (time_per_op_ net)
                (operator_nodes_ live) (time_per_op_ live)
                (time_per_op_ net) [] [] [] ∅ live)
      as (run & counted & Hloop & _);
      try reflexivity; try congruence.
    simpl in Hloop. rewrite Hloop. intros H. simpl in H.
    injection H as <-. repeat split; simpl; congruence.
Qed.

Lemma GetOperatorStats_keeps net net' :
  net_after (GetOperatorStats net) = Some net' -> net' = net.
Proof. unfold GetOperatorStats. unfold_M. simpl. congruence. Qed.

Lemma GetPerOperatorCost_keeps net net' :
  net_after (GetPerOperatorCost net) = Some net' -> net' = net.
Proof.
  unfold GetPerOperatorCost. unfold_M.
  destruct (sizes_agree net); [|simpl; congruence].
  destruct (mapM _ _); simpl; congruence.
Qed.

Lemma perform_shape c net net' :
  perform world c net = Some net' -> same_shape net net'.
Proof.
  destruct c as [chain_id chain|schedule| |]; simpl; intros H.
  - now apply RunAt_loop_shape in H.
  - now apply DoRunAsync_shape in H.
  - apply GetOperatorStats_keeps in H. subst. apply same_shape_refl.
  - apply GetPerOperatorCost_keeps in H. subst. apply same_shape_refl.
Qed.

Lemma perform_all_shape calls : forall net net',
  perform_all world calls net = Some net' -> same_shape net net'.
Proof.
  induction calls as [|c rest IH]; intros net net' H; simpl in H.
  - injection H as <-. apply same_shape_refl.
  - destruct (perform world c net) as [net1|] eqn:Hc; [|discriminate].
    eapply same_shape_trans; [exact (perform_shape _ _ _ Hc)|].
    now apply IH.
Qed.

End Shape_facts.

Section Measured_run_facts.

Variable world : nat -> Execution.

Lemma DoRunAsync_Returns_inv schedule net b net' :
  1 <= runs_ net ->
  DoRunAsync world schedule net = Returns b net' ->
  exists live per_type',
    DAGNetBase_DoRunAsync world 0 schedule (set_runs (runs_ net + 1) net)
      = Returns b live /\
    net' = set_time_per_op_type per_type' live.
Proof.
  intros Hr H.
  assert (Hpre : runs_ net <> INT_MAX /\
                 length (time_per_op_ net) = length (operator_nodes_ net) /\
                 exists b0 live,
                   DAGNetBase_DoRunAsync world 0 schedule
                     (set_runs (runs_ net + 1) net) = Returns b0 live).
  { revert H. unfold DoRunAsync. unfold_M.
    destruct (Z.eqb_spec (runs_ net) INT_MAX) as [Heq|Hne]; [discriminate|].
    cbn [runs_ set_runs]. fold (set_runs (runs_ net + 1) net).
    assert (H2 : (runs_ net + 1 <=? 1) = false) by (apply Z.leb_gt; lia).
    rewrite H2. unfold sizes_agree.
    cbn [time_per_op_ operator_nodes_ set_runs].
    case_bool_decide as Hsize; [|discriminate].
    destruct (DAGNetBase_DoRunAsync world 0 schedule _) as [b0 live|w live|];
      try discriminate.
    intros _. eauto. }
  destruct Hpre as (Hne & Hsize & b0 & live & He).
  destruct (DoRunAsync_measured world _ _ _ _ Hr Hne Hsize He)
    as (per_type' & Hrun & _).
  rewrite Hrun in H. injection H as <- <-. eauto.
Qed.

(** What a measured run leaves in [time_per_op_]. *)
Lemma DoRunAsync_measured_entries schedule net b net' :
  1 <= runs_ net ->
  DoRunAsync world schedule net = Returns b net' ->
  runs_ net' = runs_ net + 1 /\
  executed net' = (executed net + length (concat schedule))%nat /\
  forall i,
    time_per_op_ net' !! i =
      accumulate_all (spent_on world i (concat schedule) (executed net))
        <$> time_per_op_ net !! i.
Proof.
  intros Hr H.
  destruct (DoRunAsync_Returns_inv _ _ _ _ Hr H)
    as (live & per_type' & He & ->).
  destruct (engine_Returns_inv _ _ _ _ _ _ He) as (Hall & _ & ->).
  destruct (after_chain_frame world (concat schedule)
              (set_runs (runs_ net + 1) net))
    as (_ & _ & _ & Hruns & Hexec & _).
  cbn [runs_ executed time_per_op_ set_time_per_op_type].
  split; [exact Hruns|]. split; [exact Hexec|].
  intros i. rewrite after_chain_entry.
  - reflexivity.
  - simpl. lia.
  - exact (runnable_nonneg _ _ Hall).
Qed.

End Measured_run_facts.

(** ** Names of the per-operator records *)

Lemma length_append (s1 s2 : string) :
  String.length (s1 +:+ s2) = (String.length s1 + String.length s2)%nat.
Proof. induction s1 as [|a s1 IH]; simpl; [reflexivity|]. now rewrite IH. Qed.

Lemma append_inj_r (t : string) : forall s1 s2 : string,
  s1 +:+ t = s2 +:+ t -> s1 = s2.
Proof.
  induction s1 as [|a s1 IH]; intros [|a' s2] H.
  - reflexivity.
  - apply (f_equal String.length) in H.
    rewrite !length_append in H. simpl in H. lia.
  - apply (f_equal String.length) in H.
    rewrite !length_append in H. simpl in H. lia.
  - change (String a (s1 +:+ t) = String a' (s2 +:+ t)) in H.
    injection H as -> H. f_equal. now apply IH.
Qed.

Lemma op_output_name_inj net_name op_type (i j : nat) :
  op_output_name net_name i op_type = op_output_name net_name j op_type ->
  i = j.
Proof.
  unfold op_output_name. intros H.
  apply String.app_inj in H. apply String.app_inj in H.
  apply append_inj_r in H. now apply pretty_nat_inj in H.
Qed.

Lemma mapM_seq_Some {B} (f : nat -> option B) (n : nat) :
  (forall i, (i < n)%nat -> is_Some (f i)) ->
  exists l, mapM f (seq 0 n) = Some l /\
            length l = n /\
            forall i y, f i = Some y -> (i < n)%nat -> l !! i = Some y.
Proof.
  intros Hf.
  assert (Hs : is_Some (mapM f (seq 0 n))).
  { apply mapM_is_Some_2. apply Forall_forall. intros i Hi.
    apply elem_of_seq in Hi. apply Hf. lia. }
  destruct Hs as [l Hl]. exists l. split; [exact Hl|].
  apply mapM_Some_1 in Hl.
  pose proof (Forall2_length _ _ _ Hl) as Hlen. rewrite length_seq in Hlen.
  split; [congruence|].
  intros i y Hy Hi.
  destruct (Forall2_lookup_l _ _ _ i i Hl) as (y' & Hy' & Hfy).
  - apply lookup_seq. split; [reflexivity|exact Hi].
  - congruence.
Qed.

Lemma GetPerOperatorCost_records (net : ProfDAGNet) :
  length (time_per_op_ net) = length (operator_nodes_ net) ->
  exists protos,
    GetPerOperatorCost net = Returns protos net /\
    length protos = length (operator_nodes_ net) /\
    forall idx node s,
      operator_nodes_ net !! idx = Some node ->
      time_per_op_ net !! idx = Some s ->
      protos !! idx =
        Some (ProtoMsg net (op_output_name (name_ net) idx (type node), s)).
Proof.
  intros Hsize.
  destruct (mapM_seq_Some (per_operator_cost_at net)
              (length (operator_nodes_ net)))
    as (protos & Hmap & Hlen & Hat).
  { intros i Hi. unfold per_operator_cost_at.
    destruct (lookup_lt_is_Some_2 (operator_nodes_ net) i Hi) as [node ->].
    destruct (lookup_lt_is_Some_2 (time_per_op_ net) i ltac:(lia)) as [s ->].
    simpl. eauto. }
  exists protos. split; [|split; [exact Hlen|]].
  - unfold GetPerOperatorCost. unfold_M. unfold sizes_agree.
    rewrite bool_decide_eq_true_2 by exact Hsize.
    now rewrite Hmap.
  - intros idx node s Hnode Hs. apply Hat.
    + unfold per_operator_cost_at. rewrite Hnode, Hs. reflexivity.
    + now apply lookup_lt_Some in Hnode.
Qed.

(** After the warm-up run alone the two queries compute on
    [runs_ - 1 = 0]: every per-operator record holds [0.0f / 0], a NaN,
    and the per-type report is empty only because no type has an entry
    yet. *)
Lemma queries_after_warm_up (world : nat -> Execution) net_name nodes
  schedule b net' :
  DoRunAsync world schedule (Construct net_name nodes) = Returns b net' ->
  measured_runs net' = 0 /\
  GetOperatorStats net' = Returns [] net' /\
  GetPerOperatorCost net' =
    Returns (imap (fun idx node =>
                     mkProto (op_output_name net_name idx (type node))
                             Float32.nan Float32.nan) nodes) net'.
Proof.
  intros Hrun. rewrite DoRunAsync_warm_up in Hrun by (simpl; lia).
  destruct (engine_Returns_inv _ _ _ _ _ _ Hrun) as (_ & _ & ->).
  rewrite after_chain_warm_up by (simpl; lia).
  set (net' := set_executed _ _).
  split; [reflexivity|]. split; [reflexivity|].
  destruct (GetPerOperatorCost_records net') as (protos & Hget & Hlen & Hrec).
  { simpl. apply length_replicate. }
  rewrite Hget. f_equal. apply list_eq. intros idx.
  rewrite list_lookup_imap.
  destruct (nodes !! idx) as [node|] eqn:Hnode.
  - rewrite (Hrec idx node Stats_zero).
    + reflexivity.
    + exact Hnode.
    + simpl. apply lookup_replicate_2. now apply lookup_lt_Some in Hnode.
  - simpl. apply lookup_ge_None. apply lookup_ge_None in Hnode.
    simpl in Hlen. lia.
Qed.

(** ** Reachable nets and the teardown report *)

Lemma reachable_sizes_agree world net_name nodes net :
  reachable world net_name nodes net ->
  operator_nodes_ net = nodes /\
  length (time_per_op_ net) = length (operator_nodes_ net).
Proof.
  intros [calls Hcalls].
  apply perform_all_shape in Hcalls as (_ & Hnodes & Hlen & _).
  simpl in Hnodes, Hlen. rewrite length_replicate in Hlen.
  split; [exact Hnodes|congruence].
Qed.

Lemma PrintStats_returns (net : ProfDAGNet) :
  length (time_per_op_ net) = length (operator_nodes_ net) ->
  1 < runs_ net ->
  exists op_lines,
    PrintStats net =
      Returns (op_lines ++ Time_per_operator_type ::
               map (type_line (runs_ net - 1))
                   (items (time_per_op_type_ net)))%list net /\
    length op_lines = length (operator_nodes_ net) /\
    forall idx node s,
      operator_nodes_ net !! idx = Some node ->
      time_per_op_ net !! idx = Some s ->
      op_lines !! idx = op_line_at net (runs_ net - 1) idx.
Proof.
  intros Hsize Hruns.
  destruct (mapM_seq_Some (op_line_at net (runs_ net - 1))
              (length (operator_nodes_ net)))
    as (op_lines & Hmap & Hlen & Hat).
  { intros i Hi. unfold op_line_at.
    destruct (lookup_lt_is_Some_2 (operator_nodes_ net) i Hi) as [node ->].
    destruct (lookup_lt_is_Some_2 (time_per_op_ net) i ltac:(lia)) as [st ->].
    simpl. eauto. }
  exists op_lines. split; [|split; [exact Hlen|]].
  - unfold PrintStats. unfold_M. unfold sizes_agree.
    rewrite bool_decide_eq_true_2 by exact Hsize.
    rewrite (proj2 (Z.gtb_lt _ _) Hruns). now rewrite Hmap.
  - intros idx node st Hn Hst.
    assert (His : is_Some (op_line_at net (runs_ net - 1) idx)).
    { unfold op_line_at. rewrite Hn, Hst. simpl. eauto. }
    destruct His as [line Hline]. rewrite Hline. apply Hat; [exact Hline|].
    now apply lookup_lt_Some in Hn.
Qed.

(** * The properties *)

(** ** Construction and what stays fixed *)

(** C7: for every node count N >= 0, construction yields a
    [time_per_op_] of exactly N entries, each zeroed (sum = sqrsum = 0,
    cnt = 0), and no later call resizes it. *)
Theorem C7_construction_zeroed_and_never_resized
  (net_name : string) (nodes : list OperatorNode) :
  time_per_op_ (Construct net_name nodes)
    = replicate (length nodes) Stats_zero /\
  length (time_per_op_ (Construct net_name nodes)) = length nodes /\
  Forall (fun s => sum s = Float32.zero /\ sqrsum s = Float32.zero /\
                   cnt s = 0)
         (time_per_op_ (Construct net_name nodes)) /\
  forall world net,
    reachable world net_name nodes net ->
    length (time_per_op_ net) = length nodes.
Proof.
  split; [reflexivity|]. split; [apply length_replicate|]. split.
  - simpl. apply Forall_replicate. repeat split.
  - intros world net [calls Hcalls].
    apply perform_all_shape in Hcalls as (_ & _ & Hlen & _).
    rewrite Hlen. apply length_replicate.
Qed.

Lemma C7_witness :
  exists net,
    perform_all (script [(true, 1); (false, 2); (true, 4); (true, 6)])
      [Call_DoRunAsync [[0]; [1]]; Call_DoRunAsync [[0; 1]];
       Call_GetPerOperatorCost]
      (Construct "net" [add_node; mul_node]) = Some net /\
    length (time_per_op_ net) = 2%nat.
Proof.
  eexists. split; [vm_compute; reflexivity|].
  apply (proj2 (proj2 (proj2
           (C7_construction_zeroed_and_never_resized
              "net" [add_node; mul_node])))
           (script [(true, 1); (false, 2); (true, 4); (true, 6)])).
  exists [Call_DoRunAsync [[0]; [1]]; Call_DoRunAsync [[0; 1]];
          Call_GetPerOperatorCost].
  vm_compute. reflexivity.
Defined.

(** C10: no call ever increments the [cnt] of an entry of
    [time_per_op_]: it is 0 in every net a program can hold (chains change
    [sum] and [sqrsum] only), and what is reported for a node divides by
    [measuredRuns = runs_ - 1], not by the entry's own [cnt]: the record
    of [GetPerOperatorCost] for the node and, once [runs_ > 1], the line
    that [PrintStats] logs for it hold [sum / (runs_ - 1)] and
    [sqrt (sqrsum / (runs_ - 1) - mean * mean)]. *)
Theorem C10_per_operator_count_stays_zero
  (world : nat -> Execution) (net_name : string) (nodes : list OperatorNode)
  (net : ProfDAGNet) :
  reachable world net_name nodes net ->
  Forall (fun s => cnt s = 0) (time_per_op_ net) /\
  (exists protos,
      GetPerOperatorCost net = Returns protos net /\
      forall idx node s,
        nodes !! idx = Some node ->
        time_per_op_ net !! idx = Some s ->
        cnt s = 0 /\
        let mean := Float32.div (sum s) (Float32.of_int (measured_runs net)) in
        protos !! idx =
          Some (mkProto
                  (op_output_name net_name idx (type node))
                  mean
                  (Float32.sqrt
                     (Float32.sub
                        (Float32.div (sqrsum s)
                                     (Float32.of_int (measured_runs net)))
                        (Float32.mul mean mean))))) /\
  (1 < runs_ net ->
   exists log,
     PrintStats net = Returns log net /\
     forall idx node s,
       nodes !! idx = Some node ->
       time_per_op_ net !! idx = Some s ->
       cnt s = 0 /\
       let mean := Float32.div (sum s) (Float32.of_int (measured_runs net)) in
       log !! idx =
         Some (Op_line idx (print_name_of node) (type node) mean
                 (Float32.sqrt
                    (Float32.sub
                       (Float32.div (sqrsum s)
                                    (Float32.of_int (measured_runs net)))
                       (Float32.mul mean mean))))).
Proof.
  intros Hreach.
  destruct (reachable_sizes_agree _ _ _ _ Hreach) as [Hnodes Hsize].
  destruct Hreach as [calls Hcalls].
  apply perform_all_shape in Hcalls as (Hname & _ & _ & Hcnt).
  simpl in Hname.
  assert (Hzero : Forall (fun s => cnt s = 0) (time_per_op_ net)).
  { simpl in Hcnt. rewrite fmap_replicate in Hcnt.
    apply Forall_forall. intros s Hs.
    assert (Hin : cnt s ∈ cnt <$> time_per_op_ net)
      by (apply list_elem_of_fmap; eauto).
    rewrite Hcnt in Hin. now apply elem_of_replicate in Hin as [-> _]. }
  assert (Hentry : forall idx s, time_per_op_ net !! idx = Some s -> cnt s = 0).
  { intros idx s Hs. rewrite Forall_forall in Hzero. apply Hzero.
    apply list_elem_of_lookup. eauto. }
  split; [exact Hzero|]. split.
  - destruct (GetPerOperatorCost_records net Hsize)
      as (protos & Hget & _ & Hrec).
    exists protos. split; [exact Hget|].
    intros idx node s Hnode Hs. split; [exact (Hentry idx s Hs)|].
    rewrite <- Hnodes in Hnode. rewrite (Hrec idx node s Hnode Hs).
    rewrite Hname. reflexivity.
  - intros Hruns.
    destruct (PrintStats_returns net Hsize Hruns)
      as (op_lines & Hprint & Hlen & Hat).
    eexists. split; [exact Hprint|].
    intros idx node s Hnode Hs. split; [exact (Hentry idx s Hs)|].
    rewrite <- Hnodes in Hnode.
    rewrite lookup_app_l
      by (rewrite Hlen; now apply lookup_lt_Some in Hnode).
    rewrite (Hat idx node s Hnode Hs). unfold op_line_at.
    rewrite Hnode, Hs. reflexivity.
Qed.

Lemma C10_witness :
  exists net log,
    perform_all (script [(true, 1); (true, 4); (false, 6)])
      [Call_DoRunAsync [[0]]; Call_DoRunAsync [[0]]; Call_DoRunAsync [[0]]]
      (Construct "net" [add_node]) = Some net /\
    Forall (fun s => cnt s = 0) (time_per_op_ net) /\
    PrintStats net = Returns log net /\
    log !! 0%nat = Some (Op_line 0 "NO_OUTPUT" "Add" (ms 5) (ms 1)).
Proof.
  eexists _, _. split; [vm_compute; reflexivity|].
  match goal with
  | |- Forall _ (time_per_op_ ?net) /\ _ =>
      assert (Hreach : reachable (script [(true, 1); (true, 4); (false, 6)])
                         "net" [add_node] net)
  end.
  { exists [Call_DoRunAsync [[0]]; Call_DoRunAsync [[0]];
            Call_DoRunAsync [[0]]].
    vm_compute. reflexivity. }
  destruct (C10_per_operator_count_stays_zero _ _ _ _ Hreach)
    as (Hzero & _ & Hprint).
  split; [exact Hzero|].
  destruct (Hprint ltac:(vm_compute; reflexivity)) as (log & Hlog & Hline).
  destruct (Hline 0%nat add_node (mkStats (ms 10) (ms 52) 0))
    as [_ H0]; [reflexivity|vm_compute; reflexivity|].
  split; [vm_compute; reflexivity|].
  vm_compute in Hlog. injection Hlog as <-.
  exact (eq_trans H0 ltac:(vm_compute; reflexivity)).
Defined.

(** ** The warm-up run *)

(** C4: during the warm-up run ([runs_ <= 1]) a chain executes its
    operators without timing: the net it leaves differs from the one it
    found only by the number of executions, so no entry of [time_per_op_]
    or of [time_per_op_type_] is touched; and the first [DoRunAsync]
    leaves both tables as they were, with [measuredRuns = 0]. *)
Theorem C4_warm_up_mutates_no_stats
  (world : nat -> Execution) (net : ProfDAGNet) :
  (forall chain_id chain,
      runs_ net <= 1 ->
      Forall (fun idx => 0 <= idx < Z.of_nat (length (operator_nodes_ net)))
             chain ->
      RunAt world chain_id chain net =
        Returns (all_succeeded world (executed net) (length chain))
                (set_executed (executed net + length chain) net)) /\
  (forall schedule,
      runs_ net = 0 ->
      Forall (fun idx => 0 <= idx < Z.of_nat (length (operator_nodes_ net)))
             (concat schedule) ->
      exists b net',
        DoRunAsync world schedule net = Returns b net' /\
        time_per_op_ net' = time_per_op_ net /\
        time_per_op_type_ net' = time_per_op_type_ net /\
        measured_runs net' = 0 /\
        executed net' = (executed net + length (concat schedule))%nat).
Proof.
  split.
  - intros chain_id chain Hr Hall. unfold RunAt.
    rewrite RunAt_loop_returns.
    + now rewrite after_chain_warm_up.
    + eapply Forall_impl; [exact Hall|]. intros idx Hi. split; [exact Hi|lia].
  - intros schedule Hr Hall.
    rewrite DoRunAsync_warm_up by lia.
    rewrite engine_returns.
    + rewrite after_chain_warm_up by (simpl; lia).
      eexists _, _. split; [reflexivity|]. simpl.
      unfold measured_runs. simpl. repeat split. lia.
    + eapply Forall_impl; [exact Hall|]. intros idx Hi.
      split; [exact Hi|]. simpl. lia.
Qed.

Lemma C4_witness :
  RunAt (script [(true, 7); (false, 9)]) 0 [1; 0]
        (Construct "net" [add_node; mul_node])
  = Returns false
      (set_executed 2 (Construct "net" [add_node; mul_node])).
Proof.
  apply (proj1 (C4_warm_up_mutates_no_stats
                  (script [(true, 7); (false, 9)])
                  (Construct "net" [add_node; mul_node])) 0 [1; 0]).
  - simpl. lia.
  - repeat constructor; simpl; lia.
Defined.

(** ** The timed chain *)

(** C5: the flag a chain returns is the conjunction of the flags of all
    its executions, none skipped: every operator of the chain is executed
    and, on a measured run, its reading is accumulated into its entry,
    whether or not an earlier one failed; one failure makes the flag
    false. *)
Theorem C5_chain_flag_is_full_conjunction
  (world : nat -> Execution) (net : ProfDAGNet) (chain_id : Z)
  (chain : list Z) :
  Forall (runnable net) chain ->
  exists net',
    RunAt world chain_id chain net
      = Returns (all_succeeded world (executed net) (length chain)) net' /\
    executed net' = (executed net + length chain)%nat /\
    (1 < runs_ net ->
     forall i,
       time_per_op_ net' !! i =
         accumulate_all (spent_on world i chain (executed net))
           <$> time_per_op_ net !! i) /\
    (forall k,
        (k < length chain)%nat ->
        succeeded (world (executed net + k)%nat) = false ->
        all_succeeded world (executed net) (length chain) = false).
Proof.
  intros Hall. exists (after_chain world chain net).
  split; [|split; [|split]].
  - unfold RunAt. now rewrite RunAt_loop_returns.
  - apply after_chain_frame.
  - intros Hr i. apply after_chain_entry; [exact Hr|].
    exact (runnable_nonneg _ _ Hall).
  - intros k Hk Hfail. unfold all_succeeded.
    apply not_true_is_false. intros Htrue.
    rewrite forallb_forall in Htrue.
    specialize (Htrue (executed net + k)%nat).
    rewrite Hfail in Htrue. discriminate Htrue.
    apply in_seq. lia.
Qed.

Lemma C5_witness :
  exists net',
    RunAt (script [(false, 3); (true, 5)]) 0 [0; 1]
          (set_runs 2 (Construct "net" [add_node; add_node]))
      = Returns false net' /\
    time_per_op_ net' = [mkStats (ms 3) (ms 9) 0; mkStats (ms 5) (ms 25) 0].
Proof.
  destruct (C5_chain_flag_is_full_conjunction
              (script [(false, 3); (true, 5)])
              (set_runs 2 (Construct "net" [add_node; add_node])) 0 [0; 1])
    as (net' & Hrun & _ & Hentries & _).
  - repeat constructor; simpl; lia.
  - exists net'. split; [exact Hrun|].
    specialize (Hentries ltac:(simpl; lia)).
    apply list_eq. intros i. rewrite Hentries.
    destruct i as [|[|i]]; vm_compute; reflexivity.
Defined.

(** C6: if the timer reads exactly 4 ms and then 6 ms for node [i] in two
    measured runs, the node's entry ends as sum = 10, sqrsum = 52, and the
    reported mean is 10 / 2 = 5 and the standard deviation
    sqrt (52 / 2 - 25) = 1. *)
Theorem C6_two_measured_runs_of_4_and_6
  (world : nat -> Execution) (net net1 net2 : ProfDAGNet) (i : nat)
  (schedule1 schedule2 : list (list Z)) (b1 b2 : bool) :
  runs_ net = 1 ->
  time_per_op_ net !! i = Some Stats_zero ->
  DoRunAsync world schedule1 net = Returns b1 net1 ->
  DoRunAsync world schedule2 net1 = Returns b2 net2 ->
  spent_on world i (concat schedule1) (executed net) = [ms 4] ->
  spent_on world i (concat schedule2) (executed net1) = [ms 6] ->
  time_per_op_ net2 !! i = Some (mkStats (ms 10) (ms 52) 0) /\
  measured_runs net2 = 2 /\
  forall key s,
    time_per_op_ net2 !! i = Some s ->
    ProtoMsg net2 (key, s) = mkProto key (ms 5) (ms 1).
Proof.
  intros Hr Hzero H1 H2 Hfirst Hsecond.
  destruct (DoRunAsync_measured_entries world schedule1 net b1 net1
              ltac:(lia) H1) as (Hr1 & _ & He1).
  destruct (DoRunAsync_measured_entries world schedule2 net1 b2 net2
              ltac:(lia) H2) as (Hr2 & _ & He2).
  assert (Hentry : time_per_op_ net2 !! i = Some (mkStats (ms 10) (ms 52) 0)).
  { rewrite He2, He1, Hzero, Hfirst, Hsecond. vm_compute. reflexivity. }
  split; [exact Hentry|]. split; [unfold measured_runs; lia|].
  intros key s Hs. rewrite Hentry in Hs. injection Hs as <-.
  unfold ProtoMsg. replace (runs_ net2 - 1) with 2 by lia.
  vm_compute. reflexivity.
Qed.

Lemma C6_witness :
  exists net1 net2,
    DoRunAsync (script [(true, 4); (true, 6)]) [[0]]
      (set_runs 1 (Construct "net" [add_node])) = Returns true net1 /\
    DoRunAsync (script [(true, 4); (true, 6)]) [[0]] net1
      = Returns true net2 /\
    time_per_op_ net2 !! 0%nat = Some (mkStats (ms 10) (ms 52) 0) /\
    ProtoMsg net2 ("net___0___Add", mkStats (ms 10) (ms 52) 0)
      = mkProto "net___0___Add" (ms 5) (ms 1).
Proof.
  eexists _, _.
  split; [vm_compute; reflexivity|]. split; [vm_compute; reflexivity|].
  match goal with
  | |- ?net2 !! _ = _ /\ _ =>
      pose proof
        (C6_two_measured_runs_of_4_and_6
           (script [(true, 4); (true, 6)])
           (set_runs 1 (Construct "net" [add_node])) _ _ 0%nat
           [[0]] [[0]] true true
           eq_refl eq_refl eq_refl eq_refl eq_refl eq_refl)
        as (Hentry & _ & Hproto)
  end.
  split; [exact Hentry|]. apply Hproto. exact Hentry.
Defined.

(** ** The per-operator report *)

(** C8: [GetPerOperatorCost] returns one record per node index, in index
    order: the record at [idx] is named by net name, index and operator
    type and carries the mean and deviation of that node's own entry; two
    nodes of one type at distinct indices get distinct names. *)
Theorem C8_per_operator_cost_records (net : ProfDAGNet) :
  length (time_per_op_ net) = length (operator_nodes_ net) ->
  exists protos,
    GetPerOperatorCost net = Returns protos net /\
    length protos = length (operator_nodes_ net) /\
    (forall idx node s,
        operator_nodes_ net !! idx = Some node ->
        time_per_op_ net !! idx = Some s ->
        protos !! idx =
          Some (ProtoMsg net
                  (name_ net +:+ "___" +:+ pretty idx +:+ "___" +:+ type node,
                   s))) /\
    (forall i j ni nj pi pj,
        i <> j ->
        operator_nodes_ net !! i = Some ni ->
        operator_nodes_ net !! j = Some nj ->
        type ni = type nj ->
        protos !! i = Some pi ->
        protos !! j = Some pj ->
        proto_name pi <> proto_name pj).
Proof.
  intros Hsize.
  destruct (GetPerOperatorCost_records net Hsize)
    as (protos & Hget & Hlen & Hrec).
  exists protos. split; [exact Hget|split; [exact Hlen|split; [exact Hrec|]]].
  intros i j ni nj pi pj Hij Hni Hnj Hty Hpi Hpj Hname.
  destruct (lookup_lt_is_Some_2 (time_per_op_ net) i) as [si Hsi].
  { apply lookup_lt_Some in Hni. lia. }
  destruct (lookup_lt_is_Some_2 (time_per_op_ net) j) as [sj Hsj].
  { apply lookup_lt_Some in Hnj. lia. }
  rewrite (Hrec _ _ _ Hni Hsi) in Hpi. injection Hpi as <-.
  rewrite (Hrec _ _ _ Hnj Hsj) in Hpj. injection Hpj as <-.
  simpl in Hname. rewrite Hty in Hname.
  apply op_output_name_inj in Hname. contradiction.
Qed.

Lemma C8_witness :
  exists protos,
    GetPerOperatorCost (Construct "net" [add_node; add_node])
      = Returns protos (Construct "net" [add_node; add_node]) /\
    proto_name <$> protos = ["net___0___Add"; "net___1___Add"].
Proof.
  destruct (C8_per_operator_cost_records
              (Construct "net" [add_node; add_node]) eq_refl)
    as (protos & Hrun & Hlen & Hrec & _).
  exists protos. split; [exact Hrun|].
  pose proof (Hrec 0%nat add_node Stats_zero eq_refl eq_refl) as H0.
  pose proof (Hrec 1%nat add_node Stats_zero eq_refl eq_refl) as H1.
  destruct protos as [|p0 [|p1 [|p2 protos]]]; try discriminate Hlen.
  simpl in H0, H1. injection H0 as ->. injection H1 as ->.
  vm_compute. reflexivity.
Defined.

(** ** The run wrapper on a measured run *)

(** C3: on a measured run the wrapper takes, node by node, the difference
    of the running sums only (live minus snapshot), adds the differences
    up by operator type, and gives every type that has a node the
    run-total on [sum], its square on [sqrsum] and its number of nodes on
    [cnt] (a [size_t]); a type without a node keeps its entry.  This holds
    for every observed type, so in particular for those whose run-total is
    not zero. *)
Theorem C3_measured_run_folds_per_type_totals
  (world : nat -> Execution) (schedule : list (list Z))
  (net live : ProfDAGNet) (b : bool) :
  1 <= runs_ net < INT_MAX ->
  length (time_per_op_ net) = length (operator_nodes_ net) ->
  DAGNetBase_DoRunAsync world 0 schedule (set_runs (runs_ net + 1) net)
    = Returns b live ->
  exists net',
    DoRunAsync world schedule net = Returns b net' /\
    time_per_op_ net' = time_per_op_ live /\
    forall op_type : string,
      let old := default Stats_zero (time_per_op_type_ net !! op_type) in
      let run :=
        run_total (operator_nodes_ net)
          (zip_with (fun l before => Float32.sub (sum l) (sum before))
                    (time_per_op_ live) (time_per_op_ net))
          op_type in
      let n := instances (operator_nodes_ net) op_type in
      (n = 0%nat ->
       time_per_op_type_ net' !! op_type = time_per_op_type_ net !! op_type) /\
      (n <> 0%nat ->
       time_per_op_type_ net' !! op_type =
         Some (mkStats (Float32.add (sum old) run)
                       (Float32.add (sqrsum old) (Float32.mul run run))
                       ((cnt old + Z.of_nat n) mod 2 ^ 64))).
Proof.
  intros [Hlo Hhi] Hsize Hengine.
  destruct (DoRunAsync_measured world schedule net b live Hlo
              ltac:(lia) Hsize Hengine) as (per_type' & Hrun & Hfold).
  exists (set_time_per_op_type per_type' live).
  split; [exact Hrun|]. split; [reflexivity|].
  intros op_type old run n. specialize (Hfold op_type).
  cbn [time_per_op_type_ set_time_per_op_type]. rewrite Hfold.
  fold n. destruct (decide (n = 0%nat)) as [Hz|Hnz].
  - split; [reflexivity|contradiction].
  - split; [contradiction|reflexivity].
Qed.

Lemma C3_witness :
  exists net',
    DoRunAsync (script [(true, 3); (true, 5)]) [[0; 1]]
      (set_runs 1 (Construct "net" [add_node; add_node]))
      = Returns true net' /\
    time_per_op_type_ net' !! "Add" = Some (mkStats (ms 8) (ms 64) 2).
Proof.
  destruct (C3_measured_run_folds_per_type_totals
              (script [(true, 3); (true, 5)]) [[0; 1]]
              (set_runs 1 (Construct "net" [add_node; add_node])) _ _
              ltac:(vm_compute; intuition discriminate) eq_refl eq_refl)
    as (net' & Hrun & _ & Hfold).
  exists net'. split; [exact Hrun|].
  destruct (Hfold "Add") as [_ Hadd].
  rewrite Hadd by (vm_compute; discriminate).
  vm_compute. reflexivity.
Defined.

(** C9: on a measured run the flag of the underlying run is returned as
    it is and gates nothing: whether it is true or false, [runs_] has been
    incremented and the run is folded into the per-type table, so a
    failed run counts in every reported statistic. *)
Theorem C9_failed_measured_run_is_aggregated
  (world : nat -> Execution) (schedule : list (list Z))
  (net live : ProfDAGNet) (b : bool) :
  1 <= runs_ net < INT_MAX ->
  length (time_per_op_ net) = length (operator_nodes_ net) ->
  DAGNetBase_DoRunAsync world 0 schedule (set_runs (runs_ net + 1) net)
    = Returns b live ->
  exists net',
    DoRunAsync world schedule net = Returns b net' /\
    runs_ net' = runs_ net + 1 /\
    measured_runs net' = measured_runs net + 1 /\
    time_per_op_ net' = time_per_op_ live /\
    folded_into (operator_nodes_ net) (time_per_op_ live) (time_per_op_ net)
                (time_per_op_type_ net) (time_per_op_type_ net').
Proof.
  intros [Hlo Hhi] Hsize Hengine.
  destruct (DoRunAsync_measured world schedule net b live Hlo
              ltac:(lia) Hsize Hengine) as (per_type' & Hrun & Hfold).
  destruct (engine_Returns_inv _ _ _ _ _ _ Hengine) as (_ & _ & Hlive).
  destruct (after_chain_frame world (concat schedule)
              (set_runs (runs_ net + 1) net)) as (_ & _ & _ & Hruns & _).
  rewrite <- Hlive in Hruns. cbn [runs_ set_runs] in Hruns.
  exists (set_time_per_op_type per_type' live).
  split; [exact Hrun|]. unfold measured_runs.
  cbn [runs_ time_per_op_ time_per_op_type_ set_time_per_op_type].
  repeat split; [lia|lia|exact Hfold].
Qed.

Lemma C9_witness :
  exists net',
    DoRunAsync (script [(false, 3); (true, 5)]) [[0; 1]]
      (set_runs 1 (Construct "net" [add_node; add_node]))
      = Returns false net' /\
    runs_ net' = 2 /\
    time_per_op_type_ net' !! "Add" = Some (mkStats (ms 8) (ms 64) 2).
Proof.
  destruct (C9_failed_measured_run_is_aggregated
              (script [(false, 3); (true, 5)]) [[0; 1]]
              (set_runs 1 (Construct "net" [add_node; add_node])) _ _
              ltac:(vm_compute; intuition discriminate) eq_refl eq_refl)
    as (net' & Hrun & Hruns & _ & _ & Hfold).
  exists net'. split; [exact Hrun|]. split; [exact Hruns|].
  rewrite (Hfold "Add"). vm_compute. reflexivity.
Defined.

(** ** The enforced checks *)

(** C2, as stated, fails: on a net whose [time_per_op_] has two entries
    for one node, in a measured run, the chain [0] does not abort: it
    returns and has accumulated 3 ms into entry 0. *)
Lemma C2_counterexample :
  1 < runs_ mismatched_net /\
  length (time_per_op_ mismatched_net)
    <> length (operator_nodes_ mismatched_net) /\
  RunAt (script [(true, 3)]) 0 [0] mismatched_net
    = Returns true
        (mkNet "net" [add_node] [mkStats (ms 3) (ms 9) 0; Stats_zero] ∅ 2 1) /\
  ~ (exists what net',
        RunAt (script [(true, 3)]) 0 [0] mismatched_net = Throws what net' /\
        time_per_op_ net' = time_per_op_ mismatched_net).
Proof.
  split; [vm_compute; reflexivity|]. split; [vm_compute; discriminate|].
  split; [vm_compute; reflexivity|].
  intros (what & net' & H & _). vm_compute in H. discriminate H.
Qed.

(** C2, amended: on a measured run the equality of the two sizes is
    enforced by the run wrapper before any chain is executed: when it
    fails, [DoRunAsync] throws the size message and leaves every entry as
    it was.  The chain hook enforces, index by index, only that the index
    is below the size of [time_per_op_], after running the operator and
    before accumulating into that entry: the chain throws at the first
    index that is not, having accumulated the earlier ones; with every
    index in range it returns, whether or not the two sizes agree. *)
Theorem C2_size_check_by_wrapper_index_check_by_chain
  (world : nat -> Execution) (net : ProfDAGNet) :
  (forall schedule,
      1 <= runs_ net < INT_MAX ->
      length (time_per_op_ net) <> length (operator_nodes_ net) ->
      DoRunAsync world schedule net
        = Throws (size_message net) (set_runs (runs_ net + 1) net)) /\
  (forall chain_id pre idx post,
      1 < runs_ net ->
      Forall (runnable net) pre ->
      0 <= idx < Z.of_nat (length (operator_nodes_ net)) ->
      Z.of_nat (length (time_per_op_ net)) <= idx ->
      exists b net1,
        RunAt world chain_id pre net = Returns b net1 /\
        RunAt world chain_id (pre ++ idx :: post) net
          = Throws (index_message net idx)
                   (set_executed (S (executed net1)) net1) /\
        length (time_per_op_ net1) = length (time_per_op_ net) /\
        forall i,
          time_per_op_ net1 !! i =
            accumulate_all (spent_on world i pre (executed net))
              <$> time_per_op_ net !! i) /\
  (forall chain_id chain,
      1 < runs_ net ->
      Forall (runnable net) chain ->
      exists b net',
        RunAt world chain_id chain net = Returns b net').
Proof.
  split; [|split].
  - intros schedule [Hlo Hhi] Hsize. unfold DoRunAsync. unfold_M.
    assert (H1 : (runs_ net =? INT_MAX) = false) by (apply Z.eqb_neq; lia).
    rewrite H1. cbn [runs_ set_runs].
    assert (H2 : (runs_ net + 1 <=? 1) = false) by (apply Z.leb_gt; lia).
    rewrite H2. unfold sizes_agree. cbn [time_per_op_ operator_nodes_].
    rewrite bool_decide_eq_false_2 by exact Hsize. reflexivity.
  - intros chain_id pre idx post Hr Hpre Hnode Htime.
    exists (all_succeeded world (executed net) (length pre)),
           (after_chain world pre net).
    destruct (after_chain_frame world pre net)
      as (_ & Hnodes & _ & Hruns & _ & Hlen).
    split; [|split; [|split]].
    + unfold RunAt. now rewrite RunAt_loop_returns.
    + unfold RunAt. rewrite RunAt_loop_app, RunAt_loop_returns by exact Hpre.
      cbn [RunAt_loop]. unfold mbind, M_bind. rewrite RunAt_body_eq.
      rewrite Hnodes, Hruns, Hlen.
      rewrite (proj2 (size_gt_true _ _) Hnode).
      assert (H1 : (runs_ net <=? 1) = false) by (apply Z.leb_gt; lia).
      rewrite H1.
      assert (H2 : size_gt (length (time_per_op_ net)) idx = false)
        by (apply size_gt_false; lia).
      rewrite H2. simpl. unfold index_message. now rewrite Hlen.
    + exact Hlen.
    + intros i. apply after_chain_entry; [exact Hr|].
      exact (runnable_nonneg _ _ Hpre).
  - intros chain_id chain Hr Hall. unfold RunAt.
    rewrite RunAt_loop_returns by exact Hall. eauto.
Qed.

Lemma C2_witness :
  DoRunAsync (script [(true, 3)]) [[0]] (set_runs 1 mismatched_net)
    = Throws "Data collected for 2 ops, expected 1 ops."
             (set_runs 2 mismatched_net) /\
  RunAt (script [(true, 3); (true, 5)]) 0 [0; 1]
        (mkNet "net" [add_node; add_node] [Stats_zero] ∅ 2 0)
    = Throws "Expecting 1 ops, but op #1 was given."
        (mkNet "net" [add_node; add_node] [mkStats (ms 3) (ms 9) 0] ∅ 2 2).
Proof.
  split.
  - apply (proj1 (C2_size_check_by_wrapper_index_check_by_chain
                    (script [(true, 3)]) (set_runs 1 mismatched_net))
                 [[0]]).
    + vm_compute. intuition discriminate.
    + vm_compute. discriminate.
  - destruct (proj1 (proj2 (C2_size_check_by_wrapper_index_check_by_chain
                (script [(true, 3); (true, 5)])
                (mkNet "net" [add_node; add_node] [Stats_zero] ∅ 2 0)))
              0 [0] 1 [] ltac:(simpl; lia)
              ltac:(repeat constructor; simpl; lia)
              ltac:(simpl; lia) ltac:(simpl; lia))
      as (b & net1 & Hpre & Hthrow & _).
    vm_compute in Hpre. injection Hpre as <- <-.
    exact Hthrow.
Defined.

(** ** Reporting with no measured run *)

(** C1 (evaluation of the code where it departs from the claim): after
    the warm-up run alone of a one-node net, [runs_ - 1] is 0 and
    [GetPerOperatorCost] does not short-circuit: it returns a record for
    the node whose mean is [0.0f / 0], a NaN, and whose deviation is a NaN
    too.  [GetOperatorStats] returns no record, the per-type table being
    still empty, and only the teardown report has the guard. *)
Theorem C1_GetPerOperatorCost_divides_by_zero_after_warm_up :
  exists net',
    DoRunAsync (script [(true, 7)]) [[0]] (Construct "net" [add_node])
      = Returns true net' /\
    measured_runs net' = 0 /\
    GetPerOperatorCost net'
      = Returns [mkProto "net___0___Add"
                   (Float32.div Float32.zero (Float32.of_int 0))
                   Float32.nan] net' /\
    Float32.div Float32.zero (Float32.of_int 0) = Float32.nan /\
    GetOperatorStats net' = Returns [] net' /\
    Destroy net' = Returns [Insufficient_runs] net'.
Proof.
  eexists. split; [vm_compute; reflexivity|].
  destruct (queries_after_warm_up (script [(true, 7)]) "net" [add_node]
              [[0]] true _ eq_refl) as (Hm & Hstats & Hcost).
  split; [exact Hm|]. split; [exact Hcost|]. split; [reflexivity|].
  split; [exact Hstats|]. reflexivity.
Qed.

(** * Further properties of the code *)

(** ** The chain hook *)

Section Chain_hook.

Variable world : nat -> Execution.

Lemma after_body_other_entry idx net i :
  0 <= idx -> idx <> Z.of_nat i ->
  time_per_op_ (after_body world idx net) !! i = time_per_op_ net !! i.
Proof.
  intros Hidx Hne. unfold after_body.
  destruct (runs_ net <=? 1); simpl; [reflexivity|].
  apply list_lookup_alter_ne. lia.
Qed.

Lemma after_body_untimed idx net :
  runs_ net <= 1 ->
  time_per_op_ (after_body world idx net) = time_per_op_ net.
Proof.
  intros Hr. unfold after_body. apply Z.leb_le in Hr. now rewrite Hr.
Qed.

Lemma RunAt_loop_frame chain : forall success net net',
  net_after (RunAt_loop world chain success net) = Some net' ->
  time_per_op_type_ net' = time_per_op_type_ net /\
  runs_ net' = runs_ net /\
  (executed net <= executed net')%nat /\
  (forall i, ~ In (Z.of_nat i) chain ->
             time_per_op_ net' !! i = time_per_op_ net !! i) /\
  (runs_ net <= 1 -> time_per_op_ net' = time_per_op_ net).
Proof.
  induction chain as [|idx rest IH]; intros success net net' H.
  - simpl in H. injection H as <-. repeat split; auto.
  - cbn [RunAt_loop] in H. unfold mbind, M_bind in H.
    rewrite RunAt_body_eq in H.
    destruct (size_gt (length (operator_nodes_ net)) idx) eqn:Hn;
      [|discriminate].
    apply size_gt_true in Hn.
    destruct ((runs_ net <=? 1)
              || size_gt (length (time_per_op_ net)) idx).
    + apply IH in H as (A & B & C & D & E).
      destruct (after_body_frame world idx net) as (_ & _ & A' & B' & C' & _).
      rewrite A, B, A', B'. rewrite C' in C.
      split; [reflexivity|]. split; [reflexivity|]. split; [lia|]. split.
      * intros i Hi. rewrite D by (intros Hin; apply Hi; now right).
        apply after_body_other_entry; [lia|].
        intros Heq. apply Hi. now left.
      * intros Hr. rewrite E by (rewrite B'; exact Hr).
        now apply after_body_untimed.
    + simpl in H. injection H as <-. simpl. repeat split; auto.
Qed.

(** X1: whatever its outcome (return or throw), a chain changes no entry
    of [time_per_op_] whose index it does not name, and never the
    per-type table, [runs_], the nodes, the name or the length of
    [time_per_op_]; on a warm-up run it changes no entry at all. *)
Theorem RunAt_touches_only_the_entries_of_its_chain
  (chain_id : Z) (chain : list Z) (net net' : ProfDAGNet) :
  net_after (RunAt world chain_id chain net) = Some net' ->
  name_ net' = name_ net /\
  operator_nodes_ net' = operator_nodes_ net /\
  time_per_op_type_ net' = time_per_op_type_ net /\
  runs_ net' = runs_ net /\
  length (time_per_op_ net') = length (time_per_op_ net) /\
  (forall i, ~ In (Z.of_nat i) chain ->
             time_per_op_ net' !! i = time_per_op_ net !! i) /\
  (runs_ net <= 1 -> time_per_op_ net' = time_per_op_ net).
Proof.
  intros H. unfold RunAt in H.
  destruct (RunAt_loop_shape world _ _ _ _ H) as (A & B & C & _).
  destruct (RunAt_loop_frame _ _ _ _ H) as (D & E & _ & F & G).
  auto 10.
Qed.

(** X2: a chain can be cut anywhere: running [c1 ++ c2] is running [c1]
    and then [c2] on the net it leaves, the flag being the conjunction of
    the two flags; a throw or an undefined access in either half is the
    outcome of the whole. *)
Theorem RunAt_of_a_concatenation
  (chain_id : Z) (c1 c2 : list Z) (net : ProfDAGNet) :
  RunAt world chain_id (c1 ++ c2) net =
    match RunAt world chain_id c1 net with
    | Returns b1 net1 =>
        match RunAt world chain_id c2 net1 with
        | Returns b2 net2 => Returns (b1 && b2) net2
        | Throws what net2 => Throws what net2
        | Undefined => Undefined
        end
    | Throws what net1 => Throws what net1
    | Undefined => Undefined
    end.
Proof.
  unfold RunAt. rewrite RunAt_loop_app.
  destruct (RunAt_loop world c1 true net) as [b1 net1| |]; try reflexivity.
  apply RunAt_loop_flag.
Qed.

Lemma RunAt_loop_bad_index chain : forall success net,
  length (time_per_op_ net) = length (operator_nodes_ net) ->
  forallb (size_gt (length (operator_nodes_ net))) chain = false ->
  RunAt_loop world chain success net = Undefined.
Proof.
  induction chain as [|idx rest IH]; intros success net Hsize Hbad;
    [discriminate|].
  cbn [forallb] in Hbad. cbn [RunAt_loop]. unfold mbind, M_bind.
  rewrite RunAt_body_eq.
  destruct (size_gt (length (operator_nodes_ net)) idx) eqn:Hn;
    [|reflexivity].
  rewrite Hsize, Hn, orb_true_r.
  destruct (after_body_frame world idx net) as (_ & B & _ & _ & _ & F).
  apply IH.
  - now rewrite F, B.
  - rewrite B. exact Hbad.
Qed.

(** X3: on a net whose two sizes agree the index check of [RunAt] can
    never fire: [operator_nodes_[idx]] is used before the check, so a
    chain either has all its indices among the nodes and returns, or
    names an index outside them and is undefined; it never throws. *)
Theorem RunAt_never_throws_when_sizes_agree
  (chain_id : Z) (chain : list Z) (net : ProfDAGNet) :
  length (time_per_op_ net) = length (operator_nodes_ net) ->
  RunAt world chain_id chain net =
    if forallb (size_gt (length (operator_nodes_ net))) chain
    then Returns (all_succeeded world (executed net) (length chain))
                 (after_chain world chain net)
    else Undefined.
Proof.
  intros Hsize. unfold RunAt.
  destruct (forallb _ chain) eqn:Hall.
  - rewrite RunAt_loop_returns; [reflexivity|].
    rewrite forallb_forall in Hall. apply Forall_forall. intros idx Hin.
    apply list_elem_of_In in Hin. apply Hall in Hin.
    apply size_gt_true in Hin. split; [exact Hin|]. lia.
  - now apply RunAt_loop_bad_index.
Qed.

End Chain_hook.

Lemma RunAt_touches_only_the_entries_of_its_chain_witness :
  exists net',
    RunAt (script [(true, 3); (false, 5)]) 0 [2; 0]
          (set_runs 2 (Construct "net" [add_node; mul_node; add_node]))
      = Returns false net' /\
    time_per_op_ net' !! 1%nat = Some Stats_zero.
Proof.
  eexists. split; [vm_compute; reflexivity|].
  refine (eq_trans
            (proj1 (proj2 (proj2 (proj2 (proj2 (proj2
               (RunAt_touches_only_the_entries_of_its_chain
                  (script [(true, 3); (false, 5)]) 0 [2; 0]
                  (set_runs 2
                     (Construct "net" [add_node; mul_node; add_node]))
                  _ eq_refl)))))) 1%nat _) eq_refl).
  simpl. intros [H|[H|[]]]; discriminate H.
Defined.

Lemma RunAt_never_throws_when_sizes_agree_witness :
  RunAt (script [(true, 3)]) 0 [0; 7]
        (set_runs 2 (Construct "net" [add_node; mul_node]))
    = Undefined.
Proof.
  exact (RunAt_never_throws_when_sizes_agree
           (script [(true, 3)]) 0 [0; 7]
           (set_runs 2 (Construct "net" [add_node; mul_node])) eq_refl).
Defined.

(** ** The run wrapper *)

Section Run_wrapper.

Variable world : nat -> Execution.

Lemma engine_frame schedule chain_id net live :
  net_after (DAGNetBase_DoRunAsync world chain_id schedule net) = Some live ->
  time_per_op_type_ live = time_per_op_type_ net /\ runs_ live = runs_ net.
Proof.
  rewrite DAGNetBase_DoRunAsync_concat. intros H.
  apply RunAt_loop_frame in H. tauto.
Qed.

(** What any outcome of [DoRunAsync] that leaves a net has done to
    [runs_] and to the per-type table. *)
Lemma DoRunAsync_outcome schedule net net' :
  net_after (DoRunAsync world schedule net) = Some net' ->
  runs_ net' = runs_ net + 1 /\
  (time_per_op_type_ net' = time_per_op_type_ net \/
   1 <= runs_ net /\
   exists live,
     folded_into (operator_nodes_ net) (time_per_op_ live) (time_per_op_ net)
                 (time_per_op_type_ net) (time_per_op_type_ net')).
Proof.
  destruct (Z.eqb_spec (runs_ net) INT_MAX) as [Hmax|Hmax].
  { unfold DoRunAsync. unfold_M. rewrite (proj2 (Z.eqb_eq _ _) Hmax).
    discriminate. }
  destruct (Z.leb_spec (runs_ net + 1) 1) as [Hwarm|Hmeasured].
  { rewrite DoRunAsync_warm_up by lia. intros H.
    apply engine_frame in H as [A B]. simpl in A, B. auto. }
  destruct (decide (length (time_per_op_ net)
                    = length (operator_nodes_ net))) as [Hsize|Hsize].
  2:{ unfold DoRunAsync. unfold_M.
      rewrite (proj2 (Z.eqb_neq _ _) Hmax). cbn [runs_ set_runs].
      rewrite (proj2 (Z.leb_gt _ _) Hmeasured). unfold sizes_agree.
      cbn [time_per_op_ operator_nodes_].
      rewrite bool_decide_eq_false_2 by exact Hsize.
      intros H. simpl in H. injection H as <-. simpl. auto. }
  destruct (DAGNetBase_DoRunAsync world 0 schedule
              (set_runs (runs_ net + 1) net)) as [b live|what live|] eqn:He.
  - destruct (DoRunAsync_measured world schedule net b live
                ltac:(lia) Hmax Hsize He) as (per_type' & Hrun & Hfold).
    rewrite Hrun. intros H. simpl in H. injection H as <-.
    destruct (engine_frame schedule 0 (set_runs (runs_ net + 1) net) live)
      as [_ B].
    { rewrite He. reflexivity. }
    simpl in B. simpl. split; [exact B|]. right. split; [lia|]. eauto.
  - assert (Hrun : DoRunAsync world schedule net = Throws what live).
    { unfold DoRunAsync. unfold_M.
      rewrite (proj2 (Z.eqb_neq _ _) Hmax). cbn [runs_ set_runs].
      rewrite (proj2 (Z.leb_gt _ _) Hmeasured). unfold sizes_agree.
      cbn [time_per_op_ operator_nodes_].
      rewrite bool_decide_eq_true_2 by exact Hsize.
      fold (set_runs (runs_ net + 1) net). now rewrite He. }
    rewrite Hrun. intros H. simpl in H. injection H as <-.
    destruct (engine_frame schedule 0 (set_runs (runs_ net + 1) net) live)
      as [A B].
    { rewrite He. reflexivity. }
    simpl in A, B. auto.
  - assert (Hrun : DoRunAsync world schedule net = Undefined).
    { unfold DoRunAsync. unfold_M.
      rewrite (proj2 (Z.eqb_neq _ _) Hmax). cbn [runs_ set_runs].
      rewrite (proj2 (Z.leb_gt _ _) Hmeasured). unfold sizes_agree.
      cbn [time_per_op_ operator_nodes_].
      rewrite bool_decide_eq_true_2 by exact Hsize.
      fold (set_runs (runs_ net + 1) net). now rewrite He. }
    rewrite Hrun. discriminate.
Qed.

Lemma perform_runs c net net' :
  perform world c net = Some net' ->
  runs_ net' = runs_ net + (if is_run c then 1 else 0).
Proof.
  destruct c as [chain_id chain|schedule| |]; simpl; intros H.
  - apply RunAt_loop_frame in H. lia.
  - apply DoRunAsync_outcome in H. tauto.
  - apply GetOperatorStats_keeps in H. subst. lia.
  - apply GetPerOperatorCost_keeps in H. subst. lia.
Qed.

(** X4: [runs_] counts the calls of [DoRunAsync], whatever their outcome:
    after any sequence of calls on a fresh net it is the number of runs
    among them, a run that threw included, and no other call changes
    it. *)
Theorem runs_counts_every_call_of_DoRunAsync
  (net_name : string) (nodes : list OperatorNode) (calls : list Call)
  (net : ProfDAGNet) :
  perform_all world calls (Construct net_name nodes) = Some net ->
  runs_ net = Z.of_nat (length (filter (fun c => is_run c = true) calls)).
Proof.
  assert (Hgen : forall calls net0 net1,
             perform_all world calls net0 = Some net1 ->
             runs_ net1 = runs_ net0
               + Z.of_nat (length (filter (fun c => is_run c = true) calls))).
  { clear. induction calls as [|c rest IH]; intros net0 net1 H; simpl in H.
    - injection H as <-. simpl. lia.
    - destruct (perform world c net0) as [net2|] eqn:Hc; [|discriminate].
      apply IH in H. apply perform_runs in Hc.
      rewrite filter_cons. destruct (is_run c) eqn:Hrun.
      + rewrite decide_True by reflexivity. simpl length. lia.
      + rewrite decide_False by discriminate. lia. }
  intros H. apply Hgen in H. simpl in H. lia.
Qed.

Lemma perform_types c net net' :
  perform world c net = Some net' ->
  (forall op_type, is_Some (time_per_op_type_ net !! op_type) ->
                   instances (operator_nodes_ net) op_type <> 0%nat) ->
  forall op_type, is_Some (time_per_op_type_ net' !! op_type) ->
                  instances (operator_nodes_ net') op_type <> 0%nat.
Proof.
  intros H Hinv op_type.
  destruct (perform_shape world _ _ _ H) as (_ & -> & _).
  destruct c as [chain_id chain|schedule| |]; simpl in H.
  - apply RunAt_loop_frame in H as (-> & _). apply Hinv.
  - apply DoRunAsync_outcome in H as (_ & [->|(_ & live & Hfold)]);
      [apply Hinv|].
    rewrite (Hfold op_type).
    destruct (decide (instances (operator_nodes_ net) op_type = 0%nat));
      [apply Hinv|auto].
  - apply GetOperatorStats_keeps in H. subst. apply Hinv.
  - apply GetPerOperatorCost_keeps in H. subst. apply Hinv.
Qed.

Lemma perform_all_types calls : forall net net',
  perform_all world calls net = Some net' ->
  (forall op_type, is_Some (time_per_op_type_ net !! op_type) ->
                   instances (operator_nodes_ net) op_type <> 0%nat) ->
  forall op_type, is_Some (time_per_op_type_ net' !! op_type) ->
                  instances (operator_nodes_ net') op_type <> 0%nat.
Proof.
  induction calls as [|c rest IH]; intros net net' H Hinv; simpl in H.
  - injection H as <-. exact Hinv.
  - destruct (perform world c net) as [net1|] eqn:Hc; [|discriminate].
    eapply IH; [exact H|]. eapply perform_types; eassumption.
Qed.

End Run_wrapper.

Lemma runs_counts_every_call_of_DoRunAsync_witness :
  exists net,
    perform_all (script [(true, 1); (true, 2)])
      [Call_DoRunAsync [[0]]; Call_GetPerOperatorCost; Call_RunAt 0 [0];
       Call_DoRunAsync []; Call_GetOperatorStats; Call_DoRunAsync []]
      (Construct "net" [add_node]) = Some net /\
    runs_ net = 3.
Proof.
  eexists. split; [vm_compute; reflexivity|].
  exact (runs_counts_every_call_of_DoRunAsync
           (script [(true, 1); (true, 2)]) "net" [add_node]
           [Call_DoRunAsync [[0]]; Call_GetPerOperatorCost; Call_RunAt 0 [0];
            Call_DoRunAsync []; Call_GetOperatorStats; Call_DoRunAsync []]
           _ eq_refl).
Defined.

(** ** The reports *)

Lemma key_le_total {V} : Total (@key_le V).
Proof. intros a b. unfold key_le. apply String.leb_total. Qed.

Lemma items_Permutation {V} (m : gmap string V) : items m ≡ₚ map_to_list m.
Proof. apply merge_sort_Permutation. Qed.

Lemma items_Sorted {V} (m : gmap string V) : Sorted key_le (items m).
Proof. apply (Sorted_merge_sort key_le (Total0 := key_le_total)). Qed.

Lemma elem_of_items {V} (m : gmap string V) key v :
  (key, v) ∈ items m <-> m !! key = Some v.
Proof. rewrite items_Permutation. apply elem_of_map_to_list. Qed.

Lemma proto_names_of_items net (l : list (string * Stats)) :
  proto_name <$> (ProtoMsg net <$> l) = fst <$> l.
Proof. induction l as [|it l IH]; csimpl; [reflexivity|]. now rewrite IH. Qed.

(** X5: [GetOperatorStats] returns, and leaves the net as it is; its
    records are one per key of the per-type table, in strictly ascending
    order of the names (so without repetition), each computed from the
    entry of its key. *)
Theorem GetOperatorStats_one_record_per_type_in_key_order
  (net : ProfDAGNet) :
  exists protos,
    GetOperatorStats net = Returns protos net /\
    length protos = size (time_per_op_type_ net) /\
    Sorted (fun a b => String.leb a b = true) (proto_name <$> protos) /\
    NoDup (proto_name <$> protos) /\
    (forall key, key ∈ proto_name <$> protos
                 <-> is_Some (time_per_op_type_ net !! key)) /\
    (forall key s, time_per_op_type_ net !! key = Some s ->
                   ProtoMsg net (key, s) ∈ protos).
Proof.
  exists (ProtoMsg net <$> items (time_per_op_type_ net)).
  split; [reflexivity|]. rewrite proto_names_of_items.
  split; [|split; [|split; [|split]]].
  - rewrite length_fmap, items_Permutation. apply length_map_to_list.
  - apply (Sorted_fmap fst key_le); [|apply items_Sorted].
    intros x y H. exact H.
  - rewrite items_Permutation. apply NoDup_fst_map_to_list.
  - intros key. rewrite list_elem_of_fmap. split.
    + intros ([k v] & -> & Hin). apply elem_of_items in Hin. simpl. eauto.
    + intros [v Hv]. exists (key, v). split; [reflexivity|].
      now apply elem_of_items.
  - intros key v Hv. apply list_elem_of_fmap. exists (key, v).
    split; [reflexivity|]. now apply elem_of_items.
Qed.

(** X6: through any sequence of calls on a fresh net, the per-type table
    only ever holds operator types of the graph: every name reported by
    [GetOperatorStats] is the type of some node. *)
Theorem GetOperatorStats_reports_only_types_of_the_graph
  (world : nat -> Execution) (net_name : string) (nodes : list OperatorNode)
  (net : ProfDAGNet) (protos : list ProfDAGProto) (proto : ProfDAGProto) :
  reachable world net_name nodes net ->
  GetOperatorStats net = Returns protos net ->
  proto ∈ protos ->
  exists node, node ∈ nodes /\ type node = proto_name proto.
Proof.
  intros [calls Hcalls] Hget Hin.
  pose proof (perform_all_shape world _ _ _ Hcalls) as (_ & Hnodes & _).
  simpl in Hnodes.
  pose proof (perform_all_types world calls _ _ Hcalls) as Htypes.
  unfold GetOperatorStats in Hget. unfold_M. injection Hget as <-.
  apply list_elem_of_fmap in Hin as ([key v] & -> & Hin).
  apply elem_of_items in Hin. simpl.
  specialize (Htypes ltac:(intros T [x Hx]; simpl in Hx;
                           rewrite lookup_empty in Hx; discriminate)
                     key ltac:(eauto)).
  rewrite Hnodes in Htypes. unfold instances in Htypes.
  destruct (filter (fun node => type node = key) nodes) as [|node l] eqn:Hf;
    [contradiction|].
  assert (Hnode : node ∈ filter (fun node => type node = key) nodes)
    by (rewrite Hf; left).
  apply list_elem_of_filter in Hnode as [Hty Hnode]. eauto.
Qed.

Lemma GetOperatorStats_reports_only_types_of_the_graph_witness :
  exists node,
    node ∈ [mul_node; add_node] /\ type node = "Add".
Proof.
  refine (GetOperatorStats_reports_only_types_of_the_graph
            (script [(true, 1); (true, 1); (true, 3); (true, 5)])
            "net" [mul_node; add_node] _ _
            (mkProto "Add" (ms 5) (ms 0))
            (ex_intro _ [Call_DoRunAsync [[0; 1]]; Call_DoRunAsync [[0; 1]]]
                      eq_refl)
            eq_refl _).
  vm_compute. left.
Defined.

Lemma pretty_N_char_not_underscore x : pretty_N_char x <> "_"%char.
Proof. unfold pretty_N_char. repeat case_match; discriminate. Qed.

Lemma pretty_N_go_underscore_free x : forall s,
  underscore_free s -> underscore_free (pretty_N_go x s).
Proof.
  induction (N.lt_wf_0 x) as [x _ IH]; intros s Hs.
  destruct (decide (x = 0%N)) as [->|Hx].
  - now rewrite pretty_N_go_0.
  - rewrite pretty_N_go_step by lia. apply IH.
    + apply N.div_lt; lia.
    + split; [apply pretty_N_char_not_underscore|exact Hs].
Qed.

Lemma pretty_nat_underscore_free (n : nat) : underscore_free (pretty n).
Proof.
  unfold pretty, pretty_nat, pretty, pretty_N.
  destruct (decide (N.of_nat n = 0%N)).
  - simpl. split; [discriminate|exact I].
  - apply pretty_N_go_underscore_free. exact I.
Qed.

Lemma underscore_free_prefix_inj : forall a b r1 r2 : string,
  underscore_free a -> underscore_free b ->
  a +:+ String "_" r1 = b +:+ String "_" r2 -> a = b.
Proof.
  induction a as [|c a IH]; intros [|d b] r1 r2 Ha Hb H.
  - reflexivity.
  - change (String "_" r1 = String d (b +:+ String "_" r2)) in H.
    injection H as H _. destruct Hb as [Hd _]. congruence.
  - change (String c (a +:+ String "_" r1) = String "_" r2) in H.
    injection H as H _. destruct Ha as [Hc _]. congruence.
  - change (String c (a +:+ String "_" r1) = String d (b +:+ String "_" r2))
      in H.
    injection H as -> H. f_equal.
    destruct Ha as [_ Ha], Hb as [_ Hb]. now apply (IH b r1 r2).
Qed.

Lemma op_output_name_index net_name (i j : nat) (t1 t2 : string) :
  op_output_name net_name i t1 = op_output_name net_name j t2 -> i = j.
Proof.
  unfold op_output_name. intros H.
  apply String.app_inj in H. apply String.app_inj in H.
  change (pretty i +:+ String "_" ("__" +:+ t1)
          = pretty j +:+ String "_" ("__" +:+ t2)) in H.
  apply underscore_free_prefix_inj in H;
    [|apply pretty_nat_underscore_free..].
  now apply pretty_nat_inj in H.
Qed.

(** X7: the names of the records of [GetPerOperatorCost] are pairwise
    distinct, whatever the operator types and the net name: the name
    determines the index, so the result can be used as a map from names
    to costs. *)
Theorem GetPerOperatorCost_names_determine_the_index
  (net : ProfDAGNet) (protos : list ProfDAGProto) :
  GetPerOperatorCost net = Returns protos net ->
  NoDup (proto_name <$> protos) /\
  forall i j pi pj,
    protos !! i = Some pi -> protos !! j = Some pj ->
    proto_name pi = proto_name pj -> i = j.
Proof.
  intros Hget.
  assert (Hsize : length (time_per_op_ net) = length (operator_nodes_ net)).
  { unfold GetPerOperatorCost in Hget. unfold_M. unfold sizes_agree in Hget.
    case_bool_decide; [assumption|discriminate]. }
  destruct (GetPerOperatorCost_records net Hsize)
    as (protos' & Hget' & Hlen & Hrec).
  rewrite Hget in Hget'. injection Hget' as <-.
  assert (Hname : forall i p, protos !! i = Some p ->
             exists t, proto_name p = op_output_name (name_ net) i t).
  { intros i p Hp.
    assert (Hi : (i < length (operator_nodes_ net))%nat)
      by (rewrite <- Hlen; now apply lookup_lt_Some in Hp).
    destruct (lookup_lt_is_Some_2 (operator_nodes_ net) i Hi) as [node Hn].
    destruct (lookup_lt_is_Some_2 (time_per_op_ net) i ltac:(lia))
      as [st Hst].
    rewrite (Hrec i node st Hn Hst) in Hp. injection Hp as <-.
    exists (type node). reflexivity. }
  assert (Hinj : forall i j pi pj,
             protos !! i = Some pi -> protos !! j = Some pj ->
             proto_name pi = proto_name pj -> i = j).
  { intros i j pi pj Hi Hj Heq.
    destruct (Hname i pi Hi) as [t1 H1]. destruct (Hname j pj Hj) as [t2 H2].
    rewrite H1, H2 in Heq. now apply op_output_name_index in Heq. }
  split; [|exact Hinj].
  apply NoDup_alt. intros i j x Hi Hj.
  rewrite list_lookup_fmap in Hi, Hj.
  destruct (protos !! i) as [pi|] eqn:Hpi; [|discriminate].
  destruct (protos !! j) as [pj|] eqn:Hpj; [|discriminate].
  simpl in Hi, Hj. apply (Hinj i j pi pj Hpi Hpj). congruence.
Qed.

Lemma GetPerOperatorCost_names_determine_the_index_witness :
  NoDup ["n___0___Add"; "n___1___Mul"; "n___2___Add"].
Proof.
  exact (proj1 (GetPerOperatorCost_names_determine_the_index
                  (Construct "n" [add_node; mul_node; add_node]) _ eq_refl)).
Defined.

(** X8: on no net that a sequence of calls of this file builds from a
    fresh one does the size check of [GetPerOperatorCost] fire or an
    access go out of range: the query returns one record per node and
    leaves the net as it is. *)
Theorem GetPerOperatorCost_returns_on_every_reachable_net
  (world : nat -> Execution) (net_name : string) (nodes : list OperatorNode)
  (net : ProfDAGNet) :
  reachable world net_name nodes net ->
  exists protos,
    GetPerOperatorCost net = Returns protos net /\
    length protos = length nodes.
Proof.
  intros Hreach.
  destruct (reachable_sizes_agree _ _ _ _ Hreach) as [Hnodes Hsize].
  destruct (GetPerOperatorCost_records net Hsize) as (protos & Hget & Hlen & _).
  exists protos. split; [exact Hget|congruence].
Qed.

Lemma GetPerOperatorCost_returns_on_every_reachable_net_witness :
  exists net protos,
    perform_all (script [(true, 1); (false, 4)])
      [Call_DoRunAsync [[0]]; Call_DoRunAsync [[0]]]
      (Construct "net" [add_node]) = Some net /\
    GetPerOperatorCost net = Returns protos net /\
    length protos = 1%nat.
Proof.
  eexists. 
  destruct (GetPerOperatorCost_returns_on_every_reachable_net
              (script [(true, 1); (false, 4)]) "net" [add_node] _
              (ex_intro _ [Call_DoRunAsync [[0]]; Call_DoRunAsync [[0]]]
                        eq_refl))
    as (protos & Hget & Hlen).
  exists protos. split; [reflexivity|]. split; [exact Hget|exact Hlen].
Defined.

(** ** The teardown report *)

(** X9: [PrintStats] checks the sizes first and the number of runs
    second, and otherwise never fails: with sizes that differ it throws
    the size message; with equal sizes and [runs_ <= 1] it throws the
    runs message; else it logs one line per node in index order, the
    header, and one line per operator type in key order, leaving the net
    as it is. *)
Theorem PrintStats_checks_sizes_then_runs_then_logs (net : ProfDAGNet) :
  (length (time_per_op_ net) <> length (operator_nodes_ net) ->
   PrintStats net = Throws (size_message net) net) /\
  (length (time_per_op_ net) = length (operator_nodes_ net) ->
   runs_ net <= 1 ->
   PrintStats net = Throws (runs_message net) net) /\
  (length (time_per_op_ net) = length (operator_nodes_ net) ->
   1 < runs_ net ->
   exists log,
     PrintStats net = Returns log net /\
     length log = (length (operator_nodes_ net) + 1
                   + size (time_per_op_type_ net))%nat /\
     (forall idx, (idx < length (operator_nodes_ net))%nat ->
                  exists label op_type mean stddev,
                    log !! idx = Some (Op_line idx label op_type mean stddev)) /\
     log !! length (operator_nodes_ net) = Some Time_per_operator_type /\
     forall k item,
       items (time_per_op_type_ net) !! k = Some item ->
       log !! (length (operator_nodes_ net) + 1 + k)%nat
         = Some (type_line (measured_runs net) item)).
Proof.
  split; [|split].
  - intros Hsize. unfold PrintStats. unfold_M. unfold sizes_agree.
    now rewrite bool_decide_eq_false_2 by exact Hsize.
  - intros Hsize Hruns. unfold PrintStats. unfold_M. unfold sizes_agree.
    rewrite bool_decide_eq_true_2 by exact Hsize.
    assert (H : (runs_ net >? 1) = false) by (rewrite Z.gtb_ltb; apply Z.ltb_ge; lia).
    now rewrite H.
  - intros Hsize Hruns.
    destruct (PrintStats_returns net Hsize Hruns)
      as (op_lines & Hprint & Hlen & Hat).
    eexists. split; [exact Hprint|]. split; [|split; [|split]].
    + rewrite length_app. simpl. rewrite length_map.
      unfold items at 1. rewrite merge_sort_Permutation, length_map_to_list.
      lia.
    + intros idx Hidx.
      destruct (lookup_lt_is_Some_2 (operator_nodes_ net) idx Hidx)
        as [node Hn].
      destruct (lookup_lt_is_Some_2 (time_per_op_ net) idx ltac:(lia))
        as [st Hst].
      rewrite lookup_app_l by lia. rewrite (Hat idx node st Hn Hst).
      unfold op_line_at. rewrite Hn, Hst. simpl. eauto.
    + rewrite lookup_app_r by lia. rewrite Hlen, Nat.sub_diag. reflexivity.
    + intros k item Hitem. rewrite lookup_app_r by lia.
      replace (length (operator_nodes_ net) + 1 + k - length op_lines)%nat
        with (S k) by lia.
      simpl. change (map ?f ?l) with (f <$> l).
      rewrite list_lookup_fmap, Hitem. reflexivity.
Qed.

Lemma PrintStats_checks_sizes_then_runs_then_logs_witness :
  PrintStats (set_runs 1 mismatched_net)
    = Throws "Data collected for 2 ops, expected 1 ops."
             (set_runs 1 mismatched_net) /\
  PrintStats (set_runs 1 (Construct "net" [add_node]))
    = Throws "# of runs: 1, expected > 1."
             (set_runs 1 (Construct "net" [add_node])).
Proof.
  split.
  - apply (proj1 (PrintStats_checks_sizes_then_runs_then_logs
                    (set_runs 1 mismatched_net))).
    vm_compute. discriminate.
  - apply (proj1 (proj2 (PrintStats_checks_sizes_then_runs_then_logs
                           (set_runs 1 (Construct "net" [add_node]))))).
    + reflexivity.
    + simpl. lia.
Defined.



(** ** Whole lifetimes *)

Section Lifetimes.

Variable world : nat -> Execution.

Lemma accumulate_all_app (a b : list float) (s : Stats) :
  accumulate_all (a ++ b) s = accumulate_all b (accumulate_all a s).
Proof. unfold accumulate_all. apply fold_left_app. Qed.

Lemma DoRunAsync_warm_up_entries schedule net b net' :
  runs_ net <= 0 ->
  DoRunAsync world schedule net = Returns b net' ->
  runs_ net' = runs_ net + 1 /\
  executed net' = (executed net + length (concat schedule))%nat /\
  time_per_op_ net' = time_per_op_ net /\
  time_per_op_type_ net' = time_per_op_type_ net /\
  operator_nodes_ net' = operator_nodes_ net.
Proof.
  intros Hr H. rewrite DoRunAsync_warm_up in H by exact Hr.
  destruct (engine_Returns_inv _ _ _ _ _ _ H) as (_ & _ & ->).
  rewrite after_chain_warm_up by (simpl; lia). simpl. auto.
Qed.

Lemma run_all_entries schedules : forall net net' i,
  run_all world schedules net = Some net' ->
  time_per_op_ net' !! i =
    accumulate_all
      (measured_readings world i schedules (runs_ net) (executed net))
      <$> time_per_op_ net !! i.
Proof.
  induction schedules as [|schedule rest IH]; intros net net' i H.
  - simpl in H. injection H as <-. simpl.
    now destruct (time_per_op_ net !! i).
  - cbn [run_all] in H.
    destruct (DoRunAsync world schedule net) as [b net1| |] eqn:Hrun;
      try discriminate.
    rewrite (IH _ _ i H). cbn [measured_readings].
    destruct (Z.leb_spec (runs_ net + 1) 1) as [Hwarm|Hmeasured].
    + destruct (DoRunAsync_warm_up_entries schedule net b net1
                  ltac:(lia) Hrun) as (-> & -> & -> & _).
      reflexivity.
    + destruct (DoRunAsync_measured_entries world schedule net b net1
                  ltac:(lia) Hrun) as (-> & -> & Hentries).
      rewrite Hentries.
      destruct (time_per_op_ net !! i); simpl; [|reflexivity].
      now rewrite accumulate_all_app.
Qed.

(** X11: over a lifetime of completed runs of a fresh net, the entry of
    node [i] in [time_per_op_] is exactly the accumulation, in order, of
    the timer readings of node [i] in the runs after the first: no
    reading of the warm-up run ever enters it, and nothing else does. *)
Theorem per_operator_entry_is_the_fold_of_its_measured_readings
  (net_name : string) (nodes : list OperatorNode)
  (schedules : list (list (list Z))) (net : ProfDAGNet) (i : nat) :
  (i < length nodes)%nat ->
  run_all world schedules (Construct net_name nodes) = Some net ->
  time_per_op_ net !! i =
    Some (accumulate_all (measured_readings world i schedules 0 0)
                         Stats_zero) /\
  runs_ net = Z.of_nat (length schedules).
Proof.
  intros Hi H. split.
  - rewrite (run_all_entries _ _ _ i H). simpl.
    now rewrite (lookup_replicate_2 _ _ _ Hi).
  - clear Hi i. 
    assert (Hgen : forall schedules net0 net1,
               run_all world schedules net0 = Some net1 ->
               runs_ net1 = runs_ net0 + Z.of_nat (length schedules)).
    { clear. induction schedules as [|sch rest IH]; intros net0 net1 H.
      - simpl in H. injection H as <-. simpl. lia.
      - cbn [run_all] in H.
        destruct (DoRunAsync world sch net0) as [b net2| |] eqn:Hrun;
          try discriminate.
        apply IH in H.
        assert (Hout : net_after (DoRunAsync world sch net0) = Some net2)
          by (rewrite Hrun; reflexivity).
        apply DoRunAsync_outcome in Hout as [Hr _].
        simpl length. lia. }
    apply Hgen in H. simpl in H. lia.
Qed.

End Lifetimes.

Lemma per_operator_entry_is_the_fold_of_its_measured_readings_witness :
  exists net,
    run_all (script [(true, 100); (true, 4); (false, 6)])
            [[[0]]; [[0]]; [[0]]] (Construct "net" [add_node]) = Some net /\
    time_per_op_ net !! 0%nat = Some (mkStats (ms 10) (ms 52) 0).
Proof.
  eexists. split; [vm_compute; reflexivity|].
  exact (proj1 (per_operator_entry_is_the_fold_of_its_measured_readings
                  (script [(true, 100); (true, 4); (false, 6)])
                  "net" [add_node] [[[0]]; [[0]]; [[0]]] _ 0%nat
                  ltac:(simpl; lia) eq_refl)).
Defined.

Section Invocation_counts.

Variable world : nat -> Execution.

Lemma DoRunAsync_measured_Returns_inv schedule net b net' :
  1 <= runs_ net ->
  DoRunAsync world schedule net = Returns b net' ->
  runs_ net' = runs_ net + 1 /\
  operator_nodes_ net' = operator_nodes_ net /\
  exists live,
    folded_into (operator_nodes_ net) (time_per_op_ live) (time_per_op_ net)
                (time_per_op_type_ net) (time_per_op_type_ net').
Proof.
  intros Hr H.
  assert (Hout : net_after (DoRunAsync world schedule net) = Some net')
    by (rewrite H; reflexivity).
  destruct (DoRunAsync_shape world _ _ _ Hout) as (_ & Hnodes & _).
  destruct (DoRunAsync_outcome world _ _ _ Hout) as [Hruns _].
  split; [exact Hruns|]. split; [exact Hnodes|].
  destruct (DoRunAsync_Returns_inv world _ _ _ _ Hr H)
    as (live & per_type' & He & ->).
  assert (Hmax : runs_ net <> INT_MAX).
  { intros Hmax. unfold DoRunAsync in H. unfold_M.
    rewrite (proj2 (Z.eqb_eq _ _) Hmax) in H. discriminate. }
  assert (Hsize : length (time_per_op_ net) = length (operator_nodes_ net)).
  { destruct (decide (length (time_per_op_ net)
                      = length (operator_nodes_ net))) as [Hs|Hs];
      [exact Hs|].
    unfold DoRunAsync in H. unfold_M.
    rewrite (proj2 (Z.eqb_neq _ _) Hmax) in H. cbn [runs_ set_runs] in H.
    assert (H2 : (runs_ net + 1 <=? 1) = false) by (apply Z.leb_gt; lia).
    rewrite H2 in H. unfold sizes_agree in H.
    cbn [time_per_op_ operator_nodes_] in H.
    rewrite bool_decide_eq_false_2 in H by exact Hs. discriminate. }
  destruct (DoRunAsync_measured world schedule net b live Hr Hmax Hsize He)
    as (per_type'' & Hrun & Hfold).
  rewrite Hrun in H. injection H as <-.
  exists live. exact Hfold.
Qed.

Lemma run_all_counted schedules : forall net net',
  run_all world schedules net = Some net' ->
  0 <= runs_ net ->
  counted (operator_nodes_ net) net ->
  operator_nodes_ net' = operator_nodes_ net /\
  0 <= runs_ net' /\
  counted (operator_nodes_ net) net'.
Proof.
  induction schedules as [|schedule rest IH]; intros net net' H Hr Hc.
  - simpl in H. injection H as <-. auto.
  - cbn [run_all] in H.
    destruct (DoRunAsync world schedule net) as [b net1| |] eqn:Hrun;
      try discriminate.
    assert (Hstep : operator_nodes_ net1 = operator_nodes_ net /\
                    0 <= runs_ net1 /\
                    counted (operator_nodes_ net) net1).
    { destruct (Z.le_gt_cases (runs_ net) 0) as [Hwarm|Hmeasured].
      - destruct (DoRunAsync_warm_up_entries world _ _ _ _ Hwarm Hrun)
          as (Hr1 & _ & _ & Ht1 & Hn1).
        split; [exact Hn1|]. split; [lia|].
        intros op_type. destruct (Hc op_type) as [Hcnt Hsome].
        rewrite Ht1, Hr1. split.
        + rewrite Hcnt. f_equal. lia.
        + rewrite Hsome. lia.
      - destruct (DoRunAsync_measured_Returns_inv schedule net b net1
                    ltac:(lia) Hrun) as (Hr1 & Hn1 & live & Hfold).
        split; [exact Hn1|]. split; [lia|].
        intros op_type. destruct (Hc op_type) as [Hcnt Hsome].
        rewrite (Hfold op_type), Hr1.
        destruct (decide (instances (operator_nodes_ net) op_type = 0%nat))
          as [Hz|Hnz].
        + split.
          * rewrite Hcnt, Hz. f_equal. lia.
          * rewrite Hsome. lia.
        + split.
          * cbn [default cnt]. rewrite Hcnt, Zplus_mod_idemp_l.
            rewrite !Z.max_r by lia. unfold id. cbn [cnt].
            f_equal. ring.
          * split; [intros _; split; [lia|exact Hnz]|eauto]. }
    destruct Hstep as (Hn1 & Hr1 & Hc1).
    rewrite <- Hn1 in Hc1.
    destruct (IH _ _ H Hr1 Hc1) as (Hn' & Hr' & Hc').
    rewrite Hn1 in Hn', Hc'. auto.
Qed.

End Invocation_counts.

(** X12: over a lifetime of completed runs of a fresh net, the per-type
    table has an entry exactly for the operator types of the graph, from
    the first measured run on, and the invocation counter of a type is
    the number of measured runs times the number of nodes of that type
    (modulo [size_t]); so, short of a wrap-around, the "Count per iter"
    of the teardown report is the number of nodes of the type. *)
Theorem invocation_counter_is_measured_runs_times_instances
  (world : nat -> Execution) (net_name : string) (nodes : list OperatorNode)
  (schedules : list (list (list Z))) (net : ProfDAGNet) :
  run_all world schedules (Construct net_name nodes) = Some net ->
  (forall op_type s,
      time_per_op_type_ net !! op_type = Some s ->
      instances nodes op_type <> 0%nat /\
      1 <= measured_runs net /\
      cnt s = (measured_runs net * Z.of_nat (instances nodes op_type))
                mod 2 ^ 64 /\
      (measured_runs net * Z.of_nat (instances nodes op_type) < 2 ^ 64 ->
       exists mean stddev,
         type_line (measured_runs net) (op_type, s)
           = Type_line mean stddev (Z.of_nat (instances nodes op_type))
                       op_type)) /\
  (1 <= measured_runs net ->
   forall node, node ∈ nodes ->
                is_Some (time_per_op_type_ net !! type node)).
Proof.
  intros H.
  destruct (run_all_counted world schedules _ _ H) as (_ & Hr & Hc).
  { simpl. lia. }
  { intros op_type. simpl. rewrite lookup_empty. simpl. split.
    - reflexivity.
    - split; [intros [x Hx]; discriminate|lia]. }
  simpl in Hc. unfold measured_runs. split.
  - intros op_type s Hs. destruct (Hc op_type) as [Hcnt Hsome].
    rewrite Hs in Hcnt. simpl in Hcnt.
    destruct (proj1 Hsome ltac:(eauto)) as [Hruns Hinst].
    rewrite Z.max_r in Hcnt by lia.
    split; [exact Hinst|]. split; [lia|]. split; [exact Hcnt|].
    intros Hsmall. unfold type_line. eexists _, _. f_equal.
    cbn [fst snd]. rewrite Hcnt.
    unfold size_t_modulus, to_size_t, size_t_modulus.
    assert (Hpos : 1 <= Z.of_nat (instances nodes op_type)) by lia.
    rewrite Z.mod_small by nia. rewrite Z.mod_small by nia.
    rewrite Z.mul_comm. apply Z.div_mul. lia.
  - intros Hruns node Hnode. apply (Hc (type node)).
    split; [lia|]. unfold instances.
    assert (Hin : node ∈ filter (fun n => type n = type node) nodes)
      by (apply list_elem_of_filter; auto).
    destruct (filter _ nodes); [inversion Hin|discriminate].
Qed.

Lemma invocation_counter_is_measured_runs_times_instances_witness :
  exists net s,
    run_all (script []) [[[0; 1; 2]]; [[2; 1; 0]]]
            (Construct "net" [add_node; mul_node; add_node]) = Some net /\
    time_per_op_type_ net !! "Add" = Some s /\
    cnt s = 2.
Proof.
  eexists _, _. split; [vm_compute; reflexivity|].
  split; [vm_compute; reflexivity|].
  refine (eq_trans
            (proj1 (proj2 (proj2
               (proj1 (invocation_counter_is_measured_runs_times_instances
                         (script []) "net" [add_node; mul_node; add_node]
                         [[[0; 1; 2]]; [[2; 1; 0]]] _ _) "Add" _ _)))) _).
  - vm_compute. reflexivity.
  - vm_compute. reflexivity.
  - vm_compute. reflexivity.
Defined.

(** ** The device check *)

Lemma warn_node_spec node (mismatches : list Mismatch) : forall acc,
  warn_node node mismatches acc =
    (fst acc || negb (bool_decide (mismatches = [])),
     (snd acc ++ (warning_of node <$> mismatches))%list).
Proof.
  unfold warn_node.
  induction mismatches as [|m rest IH]; intros [had log].
  - simpl. now rewrite orb_false_r, app_nil_r.
  - cbn [fold_left]. rewrite IH. cbn [fst snd].
    rewrite <- app_assoc. rewrite orb_true_l.
    rewrite bool_decide_eq_false_2 by discriminate.
    now rewrite orb_true_r.
Qed.

Lemma device_loop_spec (mismatches : nat -> list Mismatch) net :
  forall rest pre acc,
    operator_nodes_ net = (pre ++ rest)%list ->
    fold_left
      (fun acc idx =>
         match operator_nodes_ net !! idx with
         | Some node => warn_node node (mismatches idx) acc
         | None => acc
         end)
      (seq (length pre) (length rest)) acc =
    (fst acc
     || negb (bool_decide (warnings_from mismatches (length pre) rest = [])),
     (snd acc ++ warnings_from mismatches (length pre) rest)%list).
Proof.
  induction rest as [|node rest IH]; intros pre [had log] Hn.
  - simpl. now rewrite orb_false_r, app_nil_r.
  - cbn [length seq fold_left warnings_from].
    assert (Hnode : operator_nodes_ net !! length pre = Some node)
      by (rewrite Hn; now rewrite list_lookup_middle).
    rewrite Hnode, warn_node_spec. cbn [fst snd].
    specialize (IH (pre ++ [node])%list).
    rewrite length_app in IH. simpl in IH. rewrite Nat.add_1_r in IH.
    rewrite IH by (now rewrite <- app_assoc). cbn [fst snd].
    rewrite <- app_assoc. f_equal.
    rewrite <- orb_assoc. f_equal.
    destruct (mismatches (length pre)) as [|m ms]; simpl.
    + reflexivity.
    + reflexivity.
Qed.

(** X13: [ValidateOpTensorDevices] logs one performance warning per
    mismatch, node by node in index order, naming the operator type, the
    expected GPU, the tensor and the actual GPU; when no node has a
    mismatch it logs the single confirmation line instead, and never
    both. *)
Theorem ValidateOpTensorDevices_warns_per_mismatch_or_confirms_once
  (mismatches : nat -> list Mismatch) (net : ProfDAGNet) :
  ValidateOpTensorDevices_log mismatches net =
    match warnings_from mismatches 0 (operator_nodes_ net) with
    | [] => [No_mismatches]
    | warnings => warnings
    end.
Proof.
  unfold ValidateOpTensorDevices_log.
  pose proof (device_loop_spec mismatches net (operator_nodes_ net) []
                (false, []) eq_refl) as Hloop.
  cbn [length] in Hloop. rewrite Hloop.
  cbn [fst snd app orb].
  destruct (warnings_from mismatches 0 (operator_nodes_ net)); reflexivity.
Qed.

(** ** Runs of a net built by this file *)

(** X14: on a net that a sequence of calls of this file builds from a
    fresh one ([runs_] not at [INT_MAX]), the wrapper adds no failure of
    its own to the run it wraps: its size check never fires and its two
    aggregation loops never index out of range.  When the underlying run
    returns, [DoRunAsync] returns the same flag, with [runs_] incremented
    and, on a measured run, the run folded into the per-type table (on the
    first run the table is left as it was); when the underlying run
    throws or is undefined, so is [DoRunAsync], in the same way. *)
Theorem DoRunAsync_adds_no_failure_on_a_reachable_net
  (world : nat -> Execution) (net_name : string) (nodes : list OperatorNode)
  (net : ProfDAGNet) (schedule : list (list Z)) :
  reachable world net_name nodes net ->
  runs_ net <> INT_MAX ->
  (forall b live,
      DAGNetBase_DoRunAsync world 0 schedule (set_runs (runs_ net + 1) net)
        = Returns b live ->
      exists net',
        DoRunAsync world schedule net = Returns b net' /\
        runs_ net' = runs_ net + 1 /\
        time_per_op_ net' = time_per_op_ live /\
        (runs_ net <= 0 ->
         time_per_op_type_ net' = time_per_op_type_ net) /\
        (1 <= runs_ net ->
         folded_into nodes (time_per_op_ live) (time_per_op_ net)
                     (time_per_op_type_ net) (time_per_op_type_ net'))) /\
  (forall what live,
      DAGNetBase_DoRunAsync world 0 schedule (set_runs (runs_ net + 1) net)
        = Throws what live ->
      DoRunAsync world schedule net = Throws what live) /\
  (DAGNetBase_DoRunAsync world 0 schedule (set_runs (runs_ net + 1) net)
     = Undefined ->
   DoRunAsync world schedule net = Undefined).
Proof.
  intros Hreach Hmax.
  destruct (reachable_sizes_agree _ _ _ _ Hreach) as [Hnodes Hsize].
  rewrite <- Hnodes.
  destruct (Z.le_gt_cases (runs_ net) 0) as [Hwarm|Hmeasured].
  - rewrite DoRunAsync_warm_up by exact Hwarm.
    split; [|split; [intros what live H; exact H|intros H; exact H]].
    intros b live He. exists live. split; [exact He|].
    destruct (engine_frame world schedule 0
                (set_runs (runs_ net + 1) net) live) as [A B].
    { rewrite He. reflexivity. }
    simpl in A, B. split; [exact B|]. split; [reflexivity|].
    split; [intros _; exact A|lia].
  - assert (Hunfold : DoRunAsync world schedule net =
              match DAGNetBase_DoRunAsync world 0 schedule
                      (set_runs (runs_ net + 1) net) with
              | Returns b live => DoRunAsync world schedule net
              | Throws what live => Throws what live
              | Undefined => Undefined
              end).
    { assert (H2 : (runs_ net + 1 <=? 1) = false) by (apply Z.leb_gt; lia).
      destruct (DAGNetBase_DoRunAsync world 0 schedule
                  (set_runs (runs_ net + 1) net)) as [b live|what live|]
        eqn:He; [reflexivity| |];
        unfold DoRunAsync; unfold_M;
        rewrite (proj2 (Z.eqb_neq _ _) Hmax); cbn [runs_ set_runs];
        rewrite H2; unfold sizes_agree; cbn [time_per_op_ operator_nodes_];
        rewrite bool_decide_eq_true_2 by exact Hsize;
        fold (set_runs (runs_ net + 1) net); now rewrite He. }
    split; [|split].
    + intros b live He.
      destruct (DoRunAsync_measured world schedule net b live
                  ltac:(lia) Hmax Hsize He) as (per_type' & Hrun & Hfold).
      exists (set_time_per_op_type per_type' live).
      split; [exact Hrun|].
      destruct (engine_frame world schedule 0
                  (set_runs (runs_ net + 1) net) live) as [_ B].
      { rewrite He. reflexivity. }
      simpl in B. simpl. split; [exact B|]. split; [reflexivity|].
      split; [lia|intros _; exact Hfold].
    + intros what live He. rewrite Hunfold, He. reflexivity.
    + intros He. rewrite Hunfold, He. reflexivity.
Qed.

Lemma DoRunAsync_adds_no_failure_on_a_reachable_net_witness :
  exists net net',
    perform_all (script [(true, 1); (false, 4)]) [Call_DoRunAsync [[0]]]
      (Construct "net" [add_node]) = Some net /\
    DoRunAsync (script [(true, 1); (false, 4)]) [[0]] net
      = Returns false net' /\
    runs_ net' = 2.
Proof.
  eexists _, _. split; [vm_compute; reflexivity|].
  match goal with
  | |- DoRunAsync _ _ ?net = _ /\ _ =>
      assert (Hreach : reachable (script [(true, 1); (false, 4)])
                         "net" [add_node] net)
  end.
  { exists [Call_DoRunAsync [[0]]]. vm_compute. reflexivity. }
  destruct (proj1 (DoRunAsync_adds_no_failure_on_a_reachable_net
                     _ _ _ _ [[0]] Hreach ltac:(vm_compute; discriminate))
                  false _ ltac:(vm_compute; reflexivity))
    as (net' & Hrun & Hruns & _).
  split; [vm_compute; reflexivity|].
  vm_compute in Hrun. injection Hrun as <-. exact Hruns.
Defined.
